(** * The quiz-game session store ([src/store/gameStore.ts])

    A shallow embedding of the zustand store [useGameStore]: the state record,
    every action as a function from states to states, and the properties of the
    room lifecycle, of scoring and of the lobby list.

    Conventions of the embedding.
    - A JavaScript [number] is an integer of [Z]: question indices, player
      limits, seconds and points are whole numbers in every call the store
      makes or receives from the screens; fractions, [NaN] and infinities are
      outside the model.
    - [T | null] is [option T]; [undefined] (an array read out of range) is
      [None] as well, since the store only ever tests such a value for
      truthiness.
    - The [scores] object of a room is a finite map from player ids to
      numbers, holding its own properties only.
    - [Math.random] is an oracle: [createRoom] receives the identifier that
      was generated, [startGame] and [nextQuestion] receive the reordering
      that [Array.prototype.sort] produced with the random comparator.
    - [set] of zustand merges the given fields into the state record; each
      action below rebuilds the record with exactly those fields replaced. *)

From Stdlib Require Import ZArith.
From stdpp Require Import base option list gmap strings.

Local Open Scope Z_scope.

(** ** Data model *)

(** Modelled from the spec: the type declarations of [src/types/game.ts] are
    not part of the sources at hand. The fields are the ones the store reads
    and writes; the remaining attributes follow the data model of the
    specification (a user has a stable identifier and a display name, a
    question an identifier, a prompt, answer options, the index of the correct
    answer, a category, a difficulty and a base point value). *)
Inductive GameState : Type := waiting | playing | finished.

#[global] Instance GameState_eq_dec : EqDecision GameState.
Proof. solve_decision. Defined.

Record User : Type := mkUser {
  user_id : string;
  user_name : string
}.

Record Question : Type := mkQuestion {
  question_id : string;
  question_text : string;
  options : list string;
  correctAnswer : Z;
  category : string;
  question_difficulty : string;
  question_points : Z
}.

Record PlayerAnswer : Type := mkPlayerAnswer {
  playerId : string;
  answerIndex : Z;
  timeSpent : Z;
  isCorrect : bool;
  points : Z
}.

Record GameRoom : Type := mkGameRoom {
  room_id : string;
  room_name : string;
  players : list User;
  maxPlayers : Z;
  isPrivate : bool;
  gameState : GameState;
  questionIndex : Z;
  timeRemaining : Z;
  scores : gmap string Z
}.

Record GameSettings : Type := mkGameSettings {
  questionsPerGame : Z;
  timePerQuestion : Z;
  difficulty : string;
  categories : list string
}.

(** [Partial<GameSettings>]: every field may be left out. *)
Record PartialGameSettings : Type := mkPartialGameSettings {
  questionsPerGame_opt : option Z;
  timePerQuestion_opt : option Z;
  difficulty_opt : option string;
  categories_opt : option (list string)
}.

(** The data fields of the [GameStore] interface. *)
Record GameStore : Type := mkGameStore {
  currentUser : option User;
  isAuthenticated : bool;
  currentRoom : option GameRoom;
  availableRooms : list GameRoom;
  currentQuestion : option Question;
  playerAnswers : list PlayerAnswer;
  gameSettings : GameSettings;
  isLoading : bool;
  error : option string;
  showResults : bool
}.

Definition defaultGameSettings : GameSettings :=
  {| questionsPerGame := 10;
     timePerQuestion := 30;
     difficulty := "mixed";
     categories := ["recycling"; "biodiversity"; "energy"; "climate-change";
                    "sustainable-consumption"; "pollution"; "conservation"] |}.

Definition initialState : GameStore :=
  {| currentUser := None;
     isAuthenticated := false;
     currentRoom := None;
     availableRooms := [];
     currentQuestion := None;
     playerAnswers := [];
     gameSettings := defaultGameSettings;
     isLoading := false;
     error := None;
     showResults := false |}.

(** ** JavaScript primitives used by the store *)

(** [a % b]: the remainder takes the sign of the dividend; [a % 0] is [NaN],
    which is [None] here. *)
Definition js_rem (a b : Z) : option Z :=
  if b =? 0 then None else Some (Z.rem a b).

(** [arr[i]]: [undefined] for [NaN], for a negative index and past the end. *)
Definition js_index {A : Type} (arr : list A) (i : option Z) : option A :=
  match i with
  | None => None
  | Some n => if n <? 0 then None else arr !! Z.to_nat n
  end.

(** [arr.slice(0, end)]: a negative [end] counts from the end of the array. *)
Definition js_slice0 {A : Type} (arr : list A) (e : Z) : list A :=
  let len := Z.of_nat (length arr) in
  let final := if e <? 0 then Z.max (len + e) 0 else Z.min e len in
  take (Z.to_nat final) arr.

(** [v || 0] for a number or an absent property. *)
Definition js_or0 (v : option Z) : Z :=
  match v with
  | Some n => if n =? 0 then 0 else n
  | None => 0
  end.

(** ** Field updates: the object spreads of the store *)

Definition room_with_players (ps : list User) (sc : gmap string Z)
    (r : GameRoom) : GameRoom :=
  {| room_id := room_id r; room_name := room_name r; players := ps;
     maxPlayers := maxPlayers r; isPrivate := isPrivate r;
     gameState := gameState r; questionIndex := questionIndex r;
     timeRemaining := timeRemaining r; scores := sc |}.

Definition room_with_scores (sc : gmap string Z) (r : GameRoom) : GameRoom :=
  room_with_players (players r) sc r.

Definition room_with_progress (g : GameState) (qi tr : Z) (r : GameRoom)
    : GameRoom :=
  {| room_id := room_id r; room_name := room_name r; players := players r;
     maxPlayers := maxPlayers r; isPrivate := isPrivate r;
     gameState := g; questionIndex := qi;
     timeRemaining := tr; scores := scores r |}.

Definition room_with_gameState (g : GameState) (r : GameRoom) : GameRoom :=
  room_with_progress g (questionIndex r) (timeRemaining r) r.

(** ** The actions of the store *)

(** A reordering produced by [sort(() => 0.5 - Math.random())]: whatever the
    random comparator answers, the sorted array holds the elements it held
    before. *)
Definition is_shuffle (sort : list Question → list Question) : Prop :=
  ∀ l, sort l ≡ₚ l.

Definition setUser (user : User) (s : GameStore) : GameStore :=
  {| currentUser := Some user; isAuthenticated := true;
     currentRoom := currentRoom s; availableRooms := availableRooms s;
     currentQuestion := currentQuestion s; playerAnswers := playerAnswers s;
     gameSettings := gameSettings s; isLoading := isLoading s;
     error := error s; showResults := showResults s |}.

Definition logout (s : GameStore) : GameStore :=
  {| currentUser := None; isAuthenticated := false;
     currentRoom := None; availableRooms := availableRooms s;
     currentQuestion := None; playerAnswers := [];
     gameSettings := gameSettings s; isLoading := isLoading s;
     error := error s; showResults := false |}.

(** [newId] is the value of [Math.random().toString(36).substr(2, 9)]. *)
Definition createRoom (newId roomName : string) (maxP : Z) (isPriv : bool)
    (s : GameStore) : GameStore :=
  match currentUser s with
  | None => s
  | Some user =>
      let newRoom :=
        {| room_id := newId; room_name := roomName; players := [user];
           maxPlayers := maxP; isPrivate := isPriv; gameState := waiting;
           questionIndex := 0; timeRemaining := 0;
           scores := {[ user_id user := 0 ]} |} in
      {| currentUser := currentUser s; isAuthenticated := isAuthenticated s;
         currentRoom := Some newRoom;
         availableRooms := availableRooms s ++ [newRoom];
         currentQuestion := currentQuestion s;
         playerAnswers := playerAnswers s;
         gameSettings := gameSettings s; isLoading := isLoading s;
         error := error s; showResults := showResults s |}
  end.

(** [availableRooms.find(r => r.id === roomId)] *)
Definition find_room (roomId : string) (rooms : list GameRoom)
    : option GameRoom :=
  List.find (λ r, bool_decide (room_id r = roomId)) rooms.

Definition joinRoom (roomId : string) (s : GameStore) : GameStore :=
  match currentUser s with
  | None => s
  | Some user =>
      match find_room roomId (availableRooms s) with
      | None => s
      | Some room =>
          if bool_decide (maxPlayers room ≤ Z.of_nat (length (players room)))
          then s
          else
            let updatedRoom :=
              room_with_players (players room ++ [user])
                (<[ user_id user := 0 ]> (scores room)) room in
            {| currentUser := currentUser s;
               isAuthenticated := isAuthenticated s;
               currentRoom := Some updatedRoom;
               availableRooms :=
                 (λ r, if bool_decide (room_id r = roomId)
                       then updatedRoom else r) <$> availableRooms s;
               currentQuestion := currentQuestion s;
               playerAnswers := playerAnswers s;
               gameSettings := gameSettings s; isLoading := isLoading s;
               error := error s; showResults := showResults s |}
      end
  end.

Definition leaveRoom (s : GameStore) : GameStore :=
  {| currentUser := currentUser s; isAuthenticated := isAuthenticated s;
     currentRoom := None; availableRooms := availableRooms s;
     currentQuestion := None; playerAnswers := [];
     gameSettings := gameSettings s; isLoading := isLoading s;
     error := error s; showResults := false |}.

Definition submitAnswer (answer_index time_spent : Z) (s : GameStore)
    : GameStore :=
  match currentUser s, currentQuestion s, currentRoom s with
  | Some user, Some question, Some room =>
      let is_correct := bool_decide (answer_index = correctAnswer question) in
      let timeBonus := Z.max 0 ((30 - time_spent) * 2) in
      let pts := if is_correct then question_points question + timeBonus
                 else 0 in
      let answer :=
        {| playerId := user_id user; answerIndex := answer_index;
           timeSpent := time_spent; isCorrect := is_correct;
           points := pts |} in
      let updatedScores :=
        <[ user_id user := js_or0 (scores room !! user_id user) + pts ]>
          (scores room) in
      {| currentUser := currentUser s; isAuthenticated := isAuthenticated s;
         currentRoom := Some (room_with_scores updatedScores room);
         availableRooms := availableRooms s;
         currentQuestion := currentQuestion s;
         playerAnswers := playerAnswers s ++ [answer];
         gameSettings := gameSettings s; isLoading := isLoading s;
         error := error s; showResults := true |}
  | _, _, _ => s
  end.

Definition endGame (s : GameStore) : GameStore :=
  match currentRoom s with
  | None => s
  | Some room =>
      {| currentUser := currentUser s; isAuthenticated := isAuthenticated s;
         currentRoom := Some (room_with_gameState finished room);
         availableRooms := availableRooms s;
         currentQuestion := None;
         playerAnswers := playerAnswers s;
         gameSettings := gameSettings s; isLoading := isLoading s;
         error := error s; showResults := true |}
  end.

Definition merge_settings (p : PartialGameSettings) (g : GameSettings)
    : GameSettings :=
  {| questionsPerGame := default (questionsPerGame g) (questionsPerGame_opt p);
     timePerQuestion := default (timePerQuestion g) (timePerQuestion_opt p);
     difficulty := default (difficulty g) (difficulty_opt p);
     categories := default (categories g) (categories_opt p) |}.

Definition setGameSettings (p : PartialGameSettings) (s : GameStore)
    : GameStore :=
  {| currentUser := currentUser s; isAuthenticated := isAuthenticated s;
     currentRoom := currentRoom s; availableRooms := availableRooms s;
     currentQuestion := currentQuestion s; playerAnswers := playerAnswers s;
     gameSettings := merge_settings p (gameSettings s);
     isLoading := isLoading s; error := error s;
     showResults := showResults s |}.

Definition setError (e : option string) (s : GameStore) : GameStore :=
  {| currentUser := currentUser s; isAuthenticated := isAuthenticated s;
     currentRoom := currentRoom s; availableRooms := availableRooms s;
     currentQuestion := currentQuestion s; playerAnswers := playerAnswers s;
     gameSettings := gameSettings s; isLoading := isLoading s;
     error := e; showResults := showResults s |}.

Definition setLoading (loading : bool) (s : GameStore) : GameStore :=
  {| currentUser := currentUser s; isAuthenticated := isAuthenticated s;
     currentRoom := currentRoom s; availableRooms := availableRooms s;
     currentQuestion := currentQuestion s; playerAnswers := playerAnswers s;
     gameSettings := gameSettings s; isLoading := loading;
     error := error s; showResults := showResults s |}.

(** The calls the screens can make, each with the random values it drew. *)
Inductive Action : Type :=
  | SetUser (user : User)
  | Logout
  | CreateRoom (newId roomName : string) (maxP : Z) (isPriv : bool)
  | JoinRoom (roomId : string)
  | LeaveRoom
  | StartGame (sort : list Question → list Question)
  | SubmitAnswer (answer_index time_spent : Z)
  | NextQuestion (sort : list Question → list Question)
  | EndGame
  | SetGameSettings (p : PartialGameSettings)
  | SetError (e : option string)
  | SetLoading (loading : bool).

Definition valid_action (a : Action) : Prop :=
  match a with
  | StartGame sort | NextQuestion sort => is_shuffle sort
  | _ => True
  end.

Section WithRepository.

(** The catalogue [mockQuestions] of [src/data/questions.ts], which the
    store only reads. *)
Variable mockQuestions : list Question.

(** The two filters that [startGame] and [nextQuestion] both apply: by
    difficulty unless it is ['mixed'], then by enabled category. *)
Definition filteredQuestions (gs : GameSettings) : list Question :=
  let byDifficulty :=
    if bool_decide (difficulty gs ≠ "mixed")
    then filter (λ q, question_difficulty q = difficulty gs) mockQuestions
    else mockQuestions in
  filter (λ q, category q ∈ categories gs) byDifficulty.

Definition startGame (sort : list Question → list Question)
    (s : GameStore) : GameStore :=
  match currentRoom s with
  | None => s
  | Some room =>
      let gs := gameSettings s in
      let shuffled := sort (filteredQuestions gs) in
      let selectedQuestions := js_slice0 shuffled (questionsPerGame gs) in
      let updatedRoom :=
        room_with_progress playing 0 (timePerQuestion gs) room in
      {| currentUser := currentUser s;
         isAuthenticated := isAuthenticated s;
         currentRoom := Some updatedRoom;
         availableRooms := availableRooms s;
         currentQuestion := js_index selectedQuestions (Some 0);
         playerAnswers := [];
         gameSettings := gameSettings s; isLoading := isLoading s;
         error := error s; showResults := showResults s |}
  end.

Definition nextQuestion (sort : list Question → list Question)
    (s : GameStore) : GameStore :=
  match currentRoom s with
  | None => s
  | Some room =>
      let gs := gameSettings s in
      let nextIndex := questionIndex room + 1 in
      if bool_decide (questionsPerGame gs ≤ nextIndex) then endGame s
      else
        let shuffled := sort (filteredQuestions gs) in
        let next :=
          js_index shuffled
            (js_rem nextIndex (Z.of_nat (length shuffled))) in
        {| currentUser := currentUser s;
           isAuthenticated := isAuthenticated s;
           currentRoom :=
             Some (room_with_progress (gameState room) nextIndex
                     (timePerQuestion gs) room);
           availableRooms := availableRooms s;
           currentQuestion := next;
           playerAnswers := playerAnswers s;
           gameSettings := gameSettings s; isLoading := isLoading s;
           error := error s; showResults := false |}
  end.

(** One call into the store. *)
Definition step (a : Action) (s : GameStore) : GameStore :=
  match a with
  | SetUser user => setUser user s
  | Logout => logout s
  | CreateRoom newId roomName maxP isPriv =>
      createRoom newId roomName maxP isPriv s
  | JoinRoom roomId => joinRoom roomId s
  | LeaveRoom => leaveRoom s
  | StartGame sort => startGame sort s
  | SubmitAnswer answer_index time_spent =>
      submitAnswer answer_index time_spent s
  | NextQuestion sort => nextQuestion sort s
  | EndGame => endGame s
  | SetGameSettings p => setGameSettings p s
  | SetError e => setError e s
  | SetLoading loading => setLoading loading s
  end.

(** A sequence of calls, first call first. *)
Definition run (acts : list Action) (s : GameStore) : GameStore :=
  foldl (λ st a, step a st) s acts.

(** The states the store can be in: those that calls with genuine
    reorderings lead to from the initial state. *)
Inductive reachable : GameStore → Prop :=
  | reachable_init : reachable initialState
  | reachable_step a s :
      reachable s → valid_action a → reachable (step a s).

(** [nextQuestion] called once per reordering of the list. *)
Definition advance (sorts : list (list Question → list Question))
    (s : GameStore) : GameStore :=
  foldl (λ st sort, nextQuestion sort st) s sorts.

End WithRepository.

(** ** Properties of states and calls *)

(** The position of a phase in the lifecycle [waiting], [playing],
    [finished]. *)
Definition phase_rank (g : GameState) : nat :=
  match g with
  | waiting => 0
  | playing => 1
  | finished => 2
  end.

(** Calls that keep whatever room is active: they neither install another
    room nor clear the slot, and they are not [startGame]. *)
Definition keeps_phase_order (a : Action) : bool :=
  match a with
  | SetUser _ | SubmitAnswer _ _ | NextQuestion _ | EndGame
  | SetGameSettings _ | SetError _ | SetLoading _ => true
  | Logout | CreateRoom _ _ _ _ | JoinRoom _ | LeaveRoom | StartGame _ => false
  end.

(** [players.length <= maxPlayers] *)
Definition within_capacity (r : GameRoom) : Prop :=
  Z.of_nat (length (players r)) ≤ maxPlayers r.

(** No two players of the room carry the same identifier. *)
Definition unique_ids (r : GameRoom) : Prop :=
  NoDup (user_id <$> players r).

(** A property of rooms that holds of the active room, when there is one, and
    of every room of the lobby list. *)
Definition all_rooms (P : GameRoom → Prop) (s : GameStore) : Prop :=
  (∀ r, currentRoom s = Some r → P r) ∧ Forall P (availableRooms s).

(** A room is only ever created with room for its creator. *)
Definition admits_creator (a : Action) : Prop :=
  match a with
  | CreateRoom _ _ maxP _ => 1 ≤ maxP
  | _ => True
  end.

(** The caller of [joinRoom] is not yet a player of the room the call
    finds. *)
Definition joins_as_newcomer (a : Action) (s : GameStore) : Prop :=
  match a with
  | JoinRoom roomId =>
      ∀ u room, currentUser s = Some u →
        find_room roomId (availableRooms s) = Some room →
        user_id u ∉ user_id <$> players room
  | _ => True
  end.

(** ** Sample data *)

Definition alice : User := {| user_id := "u1"; user_name := "Alice" |}.
Definition bob : User := {| user_id := "u2"; user_name := "Bob" |}.

Definition q_paper : Question :=
  {| question_id := "q1"; question_text := "Which bin takes newspaper?";
     options := ["Glass"; "Paper"; "Metal"; "Organic"];
     correctAnswer := 1; category := "recycling";
     question_difficulty := "easy"; question_points := 100 |}.

Definition q_solar : Question :=
  {| question_id := "q2"; question_text := "Which source is renewable?";
     options := ["Coal"; "Gas"; "Solar"; "Oil"];
     correctAnswer := 2; category := "energy";
     question_difficulty := "medium"; question_points := 50 |}.

Definition sampleQuestions : list Question := [q_paper; q_solar].

(** The store after Alice has signed in and opened a room for four. *)
Definition lobbyState : GameStore :=
  run sampleQuestions
    [SetUser alice; CreateRoom "room1" "Green quiz" 4 false] initialState.

(** The same room with the game started on the catalogue order. *)
Definition playingState : GameStore := startGame sampleQuestions id lobbyState.

(** The game of [playingState] ended at once. *)
Definition finishedState : GameStore := endGame playingState.

(** A store whose settings enable no category at all. *)
Definition noCategoryState : GameStore :=
  setGameSettings
    {| questionsPerGame_opt := None; timePerQuestion_opt := None;
       difficulty_opt := None; categories_opt := Some [] |} lobbyState.

(** The argument [{questionsPerGame: 5}]. *)
Definition onlyQuestionsPerGame5 : PartialGameSettings :=
  {| questionsPerGame_opt := Some 5; timePerQuestion_opt := None;
     difficulty_opt := None; categories_opt := None |}.

(** Alice opens a room with [maxPlayers = 0]. *)
Definition overfullState : GameStore :=
  run sampleQuestions
    [SetUser alice; CreateRoom "room0" "Nobody" 0 false] initialState.

(** Alice joins the room she opened and already sits in. *)
Definition doubledState : GameStore := joinRoom "room1" lobbyState.

(** A lobby room as [createRoom] and [joinRoom] leave it: waiting at index
    0, no time on the clock, every score at 0. *)
Definition pristine (r : GameRoom) : Prop :=
  gameState r = waiting ∧ questionIndex r = 0 ∧ timeRemaining r = 0
  ∧ map_Forall (λ _ v, v = 0) (scores r).

(** Every player of the room has an entry in its score map. *)
Definition scored_players (r : GameRoom) : Prop :=
  ∀ u, u ∈ players r → is_Some (scores r !! user_id u).

(** No score of the room is negative. *)
Definition nonneg_scores (r : GameRoom) : Prop :=
  map_Forall (λ _ v, 0 ≤ v) (scores r).

(** The argument [{}] of [setGameSettings]. *)
Definition emptyPartial : PartialGameSettings :=
  {| questionsPerGame_opt := None; timePerQuestion_opt := None;
     difficulty_opt := None; categories_opt := None |}.

(** Alice's game of [playingState] after her right answer at 10 seconds. *)
Definition answeredState : GameStore :=
  run sampleQuestions
    [SetUser alice; CreateRoom "room1" "Green quiz" 4 false;
     StartGame id; SubmitAnswer 1 10] initialState.

(** ** Auxiliary facts *)

Lemma is_shuffle_id : is_shuffle id.
Proof. intros l. reflexivity. Qed.

Lemma js_or0_default (v : option Z) : js_or0 v = default 0 v.
Proof.
  destruct v as [n|]; simpl; [|reflexivity].
  destruct (Z.eqb_spec n 0); congruence.
Qed.

Lemma find_room_elem (roomId : string) (rooms : list GameRoom)
    (room : GameRoom) :
  find_room roomId rooms = Some room →
  room ∈ rooms ∧ room_id room = roomId.
Proof.
  intros Hfind. apply List.find_some in Hfind as [Hin Hid].
  split; [apply list_elem_of_In, Hin | exact (bool_decide_eq_true_1 _ Hid)].
Qed.

(** ** Scoring *)

(** C1: when a user, a question and a room are present, [submitAnswer]
    appends the answer whose correctness flag is [answerIndex =
    correctAnswer], whose points are [question.points + max(0, (30 -
    timeSpent) * 2)] when correct and [0] otherwise. The bonus is measured
    against 30 seconds whatever the settings say (changing the settings first
    changes nothing in the recorded answers), it is [0] from 30 seconds on and
    [2 * (30 - timeSpent)] before, and the points are never negative for a
    question whose own points are not. *)
Theorem submitAnswer_scoring (s : GameStore) (u : User) (q : Question)
    (r : GameRoom) (answer_index time_spent : Z) :
  currentUser s = Some u →
  currentQuestion s = Some q →
  currentRoom s = Some r →
  let bonus := Z.max 0 ((30 - time_spent) * 2) in
  let correct := bool_decide (answer_index = correctAnswer q) in
  let awarded := if correct then question_points q + bonus else 0 in
  playerAnswers (submitAnswer answer_index time_spent s) =
    playerAnswers s ++
      [{| playerId := user_id u; answerIndex := answer_index;
          timeSpent := time_spent; isCorrect := correct;
          points := awarded |}]
  ∧ (∀ p, playerAnswers
            (submitAnswer answer_index time_spent (setGameSettings p s)) =
          playerAnswers (submitAnswer answer_index time_spent s))
  ∧ (30 ≤ time_spent → bonus = 0)
  ∧ (time_spent < 30 → bonus = 2 * (30 - time_spent))
  ∧ (correct = false → awarded = 0)
  ∧ (0 ≤ question_points q → 0 ≤ awarded).
Proof.
  intros Hu Hq Hr bonus correct awarded.
  repeat split.
  - unfold submitAnswer. rewrite Hu, Hq, Hr. reflexivity.
  - intros p. unfold submitAnswer. simpl. rewrite Hu, Hq, Hr. reflexivity.
  - intros Hlate. subst bonus. lia.
  - intros Hearly. subst bonus. lia.
  - intros Hwrong. subst awarded. rewrite Hwrong. reflexivity.
  - intros Hpos. subst awarded bonus. destruct correct; lia.
Qed.

Lemma submitAnswer_scoring_witness :
  playerAnswers (submitAnswer 1 10 playingState) =
    [{| playerId := "u1"; answerIndex := 1; timeSpent := 10;
        isCorrect := true; points := 140 |}].
Proof.
  exact (proj1 (submitAnswer_scoring playingState alice q_paper _ 1 10
                  eq_refl eq_refl eq_refl)).
Defined.

(** A right answer after 45 seconds earns the 100 points of the question
    and no bonus; a wrong answer earns nothing however fast it comes. *)
Example submitAnswer_late_and_wrong :
  points <$> playerAnswers
     (submitAnswer 0 5 (submitAnswer 1 45 playingState)) = [100; 0].
Proof. reflexivity. Qed.

(** On the second question, worth 50 points, a right answer after 45
    seconds earns 50. *)
Example submitAnswer_no_bonus_after_30 :
  points <$> playerAnswers
     (submitAnswer 2 45 (nextQuestion sampleQuestions id playingState))
  = [50].
Proof. reflexivity. Qed.

(** C9: nothing in [submitAnswer] remembers that the question was answered.
    With a user, a question and a room present, a call appends one answer and
    adds its points to the caller's entry of the score map (an entry that is
    missing counts as 0); the user, the question and the room are still there
    afterwards, so a second call with the same arguments appends the same
    answer again and adds the points again. *)
Theorem submitAnswer_not_guarded (s : GameStore) (u : User) (q : Question)
    (r : GameRoom) (answer_index time_spent : Z) :
  currentUser s = Some u →
  currentQuestion s = Some q →
  currentRoom s = Some r →
  let pts :=
    if bool_decide (answer_index = correctAnswer q)
    then question_points q + Z.max 0 ((30 - time_spent) * 2) else 0 in
  let before := default 0 (scores r !! user_id u) in
  let s1 := submitAnswer answer_index time_spent s in
  let s2 := submitAnswer answer_index time_spent s1 in
  (∃ a, playerId a = user_id u ∧ points a = pts
        ∧ playerAnswers s1 = playerAnswers s ++ [a]
        ∧ playerAnswers s2 = playerAnswers s ++ [a; a])
  ∧ scores <$> currentRoom s1 =
      Some (<[user_id u := before + pts]> (scores r))
  ∧ scores <$> currentRoom s2 =
      Some (<[user_id u := before + pts + pts]> (scores r))
  ∧ currentUser s1 = Some u ∧ currentQuestion s1 = Some q.
Proof.
  intros Hu Hq Hr pts before s1 s2.
  assert (Hs1 : s1 =
    {| currentUser := currentUser s; isAuthenticated := isAuthenticated s;
       currentRoom :=
         Some (room_with_scores (<[user_id u := before + pts]> (scores r)) r);
       availableRooms := availableRooms s;
       currentQuestion := currentQuestion s;
       playerAnswers := playerAnswers s ++
         [{| playerId := user_id u; answerIndex := answer_index;
             timeSpent := time_spent;
             isCorrect := bool_decide (answer_index = correctAnswer q);
             points := pts |}];
       gameSettings := gameSettings s; isLoading := isLoading s;
       error := error s; showResults := true |}).
  { subst s1 before. unfold submitAnswer. rewrite Hu, Hq, Hr.
    rewrite js_or0_default. reflexivity. }
  assert (Hs2 : scores <$> currentRoom s2 =
                  Some (<[user_id u := before + pts + pts]> (scores r))
                ∧ playerAnswers s2 = playerAnswers s1 ++
                    [{| playerId := user_id u; answerIndex := answer_index;
                        timeSpent := time_spent;
                        isCorrect :=
                          bool_decide (answer_index = correctAnswer q);
                        points := pts |}]).
  { subst s2. unfold submitAnswer. rewrite Hs1. simpl. rewrite Hu, Hq. simpl.
    rewrite lookup_insert_eq, js_or0_default, insert_insert_eq. simpl.
    split; reflexivity. }
  destruct Hs2 as [Hsc2 Hans2].
  split; [|split; [|split; [|split]]].
  - eexists. split; [|split; [|split]]; [| |rewrite Hs1; reflexivity|].
    + reflexivity.
    + reflexivity.
    + rewrite Hans2, Hs1. simpl. rewrite <- app_assoc. reflexivity.
  - rewrite Hs1. reflexivity.
  - exact Hsc2.
  - rewrite Hs1. exact Hu.
  - rewrite Hs1. exact Hq.
Qed.

Lemma submitAnswer_not_guarded_witness :
  scores <$> currentRoom (submitAnswer 1 10 (submitAnswer 1 10 playingState))
  = Some (<["u1" := 0 + 140 + 140]> {["u1" := 0]}).
Proof.
  exact (proj1 (proj2 (proj2
    (submitAnswer_not_guarded playingState alice q_paper _ 1 10
       eq_refl eq_refl eq_refl)))).
Defined.

(** ** Calls without their prerequisites *)

Section Prerequisites.

Variable mockQuestions : list Question.

(** C5: a call whose prerequisite is missing returns the store as it
    received it, and no call has a failing path: [createRoom] without a
    user; [joinRoom] without a user or without a room of that id in the
    lobby list; [submitAnswer] without a user, a question or a room;
    [startGame], [nextQuestion] and [endGame] without a room. *)
Theorem missing_prerequisite_is_noop (s : GameStore) :
  (currentUser s = None →
     ∀ newId roomName maxP isPriv,
       createRoom newId roomName maxP isPriv s = s)
  ∧ (∀ roomId,
       currentUser s = None ∨ find_room roomId (availableRooms s) = None →
       joinRoom roomId s = s)
  ∧ (currentUser s = None ∨ currentQuestion s = None ∨ currentRoom s = None →
       ∀ answer_index time_spent,
         submitAnswer answer_index time_spent s = s)
  ∧ (currentRoom s = None →
       ∀ sort, startGame mockQuestions sort s = s
               ∧ nextQuestion mockQuestions sort s = s
               ∧ endGame s = s).
Proof.
  split; [|split; [|split]].
  - intros Hu newId roomName maxP isPriv.
    unfold createRoom. rewrite Hu. reflexivity.
  - intros roomId [Hu | Hfind]; unfold joinRoom.
    + rewrite Hu. reflexivity.
    + destruct (currentUser s); [rewrite Hfind|]; reflexivity.
  - intros Hmissing answer_index time_spent. unfold submitAnswer.
    destruct Hmissing as [H | [H | H]]; rewrite H.
    + reflexivity.
    + destruct (currentUser s); reflexivity.
    + destruct (currentUser s), (currentQuestion s); reflexivity.
  - intros Hr sort. unfold startGame, nextQuestion, endGame.
    rewrite Hr. repeat split.
Qed.

End Prerequisites.

Lemma missing_prerequisite_is_noop_witness :
  createRoom "room1" "Green quiz" 4 false initialState = initialState
  ∧ joinRoom "room1" initialState = initialState
  ∧ submitAnswer 1 10 initialState = initialState
  ∧ startGame sampleQuestions id initialState = initialState
  ∧ nextQuestion sampleQuestions id initialState = initialState
  ∧ endGame initialState = initialState.
Proof.
  pose proof (missing_prerequisite_is_noop sampleQuestions initialState)
    as (Hcreate & Hjoin & Hsubmit & Hroom).
  split; [exact (Hcreate eq_refl _ _ _ _)|].
  split; [exact (Hjoin _ (or_introl eq_refl))|].
  split; [exact (Hsubmit (or_introl eq_refl) _ _)|].
  exact (Hroom eq_refl id).
Defined.

(** A signed-in user answering outside any room: the answer log and the
    scores of the lobby copy stay as they are. *)
Example submitAnswer_without_room :
  submitAnswer 1 10 (leaveRoom playingState) = leaveRoom playingState.
Proof. reflexivity. Qed.

(** ** Settings *)

(** C8: [setGameSettings] gives every field that the argument holds the
    argument's value and keeps every field it leaves out; nothing outside
    [gameSettings] changes. With the argument [{questionsPerGame: 5}] the
    categories, the difficulty and the time per question are the previous
    ones. *)
Theorem setGameSettings_merges (s : GameStore) (p : PartialGameSettings) :
  let old := gameSettings s in
  let new := gameSettings (setGameSettings p s) in
  questionsPerGame new =
    match questionsPerGame_opt p with Some v => v
                                    | None => questionsPerGame old end
  ∧ timePerQuestion new =
    match timePerQuestion_opt p with Some v => v
                                   | None => timePerQuestion old end
  ∧ difficulty new =
    match difficulty_opt p with Some v => v | None => difficulty old end
  ∧ categories new =
    match categories_opt p with Some v => v | None => categories old end
  ∧ setGameSettings p s =
      {| currentUser := currentUser s; isAuthenticated := isAuthenticated s;
         currentRoom := currentRoom s; availableRooms := availableRooms s;
         currentQuestion := currentQuestion s;
         playerAnswers := playerAnswers s;
         gameSettings := new;
         isLoading := isLoading s; error := error s;
         showResults := showResults s |}
  ∧ (let new5 := gameSettings (setGameSettings onlyQuestionsPerGame5 s) in
     questionsPerGame new5 = 5
     ∧ categories new5 = categories old
     ∧ difficulty new5 = difficulty old
     ∧ timePerQuestion new5 = timePerQuestion old).
Proof.
  simpl. unfold merge_settings.
  destruct p as [[qpg|] [tpq|] [d|] [c|]]; simpl; repeat split.
Qed.

(** ** The lobby list during a game *)

Section LobbyFrame.

Variable mockQuestions : list Question.

(** C10: [startGame], [submitAnswer], [nextQuestion] and [endGame] write
    the room they update into the active slot only; the lobby list, with
    its copy of that room, is the list they found. *)
Theorem in_game_calls_keep_lobby (s : GameStore)
    (sort : list Question → list Question) (answer_index time_spent : Z) :
  availableRooms (startGame mockQuestions sort s) = availableRooms s
  ∧ availableRooms (submitAnswer answer_index time_spent s) =
      availableRooms s
  ∧ availableRooms (nextQuestion mockQuestions sort s) = availableRooms s
  ∧ availableRooms (endGame s) = availableRooms s.
Proof.
  unfold startGame, submitAnswer, nextQuestion, endGame.
  destruct (currentRoom s) as [room|] eqn:Hr;
    destruct (currentUser s), (currentQuestion s);
    repeat split; try reflexivity;
    case_bool_decide; simpl; try rewrite Hr; reflexivity.
Qed.

End LobbyFrame.

(** The copy goes stale: after a game with one right answer has ended, the
    active room is finished with 140 points for Alice, while the lobby still
    lists the room as waiting with none. *)
Example lobby_copy_is_stale :
  let s := endGame (submitAnswer 1 10 playingState) in
  (λ r, (gameState r, scores r !! "u1")) <$> currentRoom s
    = Some (finished, Some 140)
  ∧ (λ r, (gameState r, scores r !! "u1")) <$> availableRooms s
    = [(waiting, Some 0)].
Proof. vm_compute. split; reflexivity. Qed.

(** ** The lifecycle of the active room *)

Lemma phase_rank_finished_max (g : GameState) :
  (phase_rank g ≤ phase_rank finished)%nat.
Proof. destruct g; simpl; lia. Qed.

Lemma room_with_gameState_same (r : GameRoom) :
  room_with_gameState (gameState r) r = r.
Proof. destruct r. reflexivity. Qed.

Lemma js_slice0_nil {A : Type} (e : Z) : js_slice0 (@nil A) e = [].
Proof. unfold js_slice0. apply take_nil. Qed.

Section Lifecycle.

Variable mockQuestions : list Question.

Lemma reachable_run (acts : list Action) :
  ∀ s, reachable mockQuestions s → Forall valid_action acts →
       reachable mockQuestions (run mockQuestions acts s).
Proof.
  induction acts as [|a acts IH]; intros s Hs Hvalid; [exact Hs|].
  inversion Hvalid as [|? ? Ha Hacts]; subst.
  apply IH; [|exact Hacts]. apply reachable_step; assumption.
Qed.

Lemma endGame_room (s : GameStore) (r : GameRoom) :
  currentRoom s = Some r →
  currentRoom (endGame s) = Some (room_with_gameState finished r)
  ∧ currentQuestion (endGame s) = None
  ∧ gameSettings (endGame s) = gameSettings s.
Proof. intros Hr. unfold endGame. rewrite Hr. repeat split. Qed.

(** Below the limit a call moves to the next index and changes neither the
    phase nor the settings. *)
Lemma nextQuestion_below_limit (sort : list Question → list Question)
    (s : GameStore) (r : GameRoom) :
  currentRoom s = Some r →
  questionIndex r + 1 < questionsPerGame (gameSettings s) →
  currentRoom (nextQuestion mockQuestions sort s) =
    Some (room_with_progress (gameState r) (questionIndex r + 1)
            (timePerQuestion (gameSettings s)) r)
  ∧ gameSettings (nextQuestion mockQuestions sort s) = gameSettings s.
Proof.
  intros Hr Hlt. unfold nextQuestion. rewrite Hr.
  rewrite bool_decide_eq_false_2 by lia. split; reflexivity.
Qed.

Lemma advance_below_limit (sorts : list (list Question → list Question)) :
  ∀ (s : GameStore) (r : GameRoom),
    currentRoom s = Some r →
    questionIndex r + Z.of_nat (length sorts)
      < questionsPerGame (gameSettings s) →
    ∃ r', currentRoom (advance mockQuestions sorts s) = Some r'
          ∧ questionIndex r' = questionIndex r + Z.of_nat (length sorts)
          ∧ gameState r' = gameState r
          ∧ gameSettings (advance mockQuestions sorts s) = gameSettings s.
Proof.
  induction sorts as [|sort sorts IH]; intros s r Hr Hlt.
  - exists r. simpl. repeat split; [exact Hr | lia].
  - simpl in Hlt.
    destruct (nextQuestion_below_limit sort s r Hr) as [Hr1 Hgs1]; [lia|].
    destruct (IH _ _ Hr1) as (r' & Hr' & Hidx & Hphase & Hgs).
    { rewrite Hgs1. simpl. lia. }
    exists r'. simpl in *. repeat split.
    + exact Hr'.
    + lia.
    + exact Hphase.
    + congruence.
Qed.

(** C4: with ten questions per game and a room playing at index 0, the
    index after [k] calls of [nextQuestion] is [k] and the room is still
    playing, for every [k] up to 9; the tenth call leaves the index at 9,
    finishes the room and clears the current question. *)
Theorem ten_questions_then_finished (s : GameStore) (r : GameRoom)
    (sorts : list (list Question → list Question)) :
  currentRoom s = Some r →
  questionIndex r = 0 →
  gameState r = playing →
  questionsPerGame (gameSettings s) = 10 →
  length sorts = 10%nat →
  (∀ k, (k ≤ 9)%nat →
     ∃ rk, currentRoom (advance mockQuestions (take k sorts) s) = Some rk
           ∧ questionIndex rk = Z.of_nat k
           ∧ gameState rk = playing)
  ∧ (∃ r10, currentRoom (advance mockQuestions sorts s) = Some r10
            ∧ questionIndex r10 = 9
            ∧ gameState r10 = finished
            ∧ currentQuestion (advance mockQuestions sorts s) = None).
Proof.
  intros Hr Hidx Hphase Hqpg Hlen.
  assert (Hfirst : ∀ k, (k ≤ 9)%nat →
    ∃ rk, currentRoom (advance mockQuestions (take k sorts) s) = Some rk
          ∧ questionIndex rk = Z.of_nat k
          ∧ gameState rk = playing
          ∧ gameSettings (advance mockQuestions (take k sorts) s)
            = gameSettings s).
  { intros k Hk.
    destruct (advance_below_limit (take k sorts) s r Hr)
      as (rk & Hrk & Hik & Hpk & Hgk).
    { rewrite length_take. lia. }
    rewrite length_take in Hik.
    exists rk. repeat split; [exact Hrk | lia | congruence | exact Hgk]. }
  split.
  - intros k Hk. destruct (Hfirst k Hk) as (rk & ? & ? & ? & _).
    exists rk. repeat split; assumption.
  - destruct (Hfirst 9%nat) as (r9 & Hr9 & Hi9 & Hp9 & Hg9); [lia|].
    destruct (lookup_lt_is_Some_2 sorts 9) as [last Hlast]; [lia|].
    assert (Hsplit : sorts = take 9 sorts ++ [last]).
    { rewrite <- (take_S_r _ _ _ Hlast). symmetry. apply take_ge. lia. }
    rewrite Hsplit. unfold advance in *. rewrite foldl_app. simpl.
    set (s9 := foldl _ s (take 9 sorts)) in *.
    unfold nextQuestion. rewrite Hr9.
    rewrite bool_decide_eq_true_2 by (rewrite Hg9; lia).
    destruct (endGame_room s9 r9 Hr9) as (Hroom & Hq & _).
    exists (room_with_gameState finished r9).
    repeat split; [exact Hroom | exact Hi9 | exact Hq].
Qed.

(** C6: when no question passes the filters, [startGame] still puts the
    room in the playing phase, with no current question, and
    [nextQuestion] below the limit still moves to the next index, with no
    current question. *)
Theorem empty_pool_is_tolerated (s : GameStore) (r : GameRoom)
    (sort : list Question → list Question) :
  is_shuffle sort →
  filteredQuestions mockQuestions (gameSettings s) = [] →
  currentRoom s = Some r →
  (gameState <$> currentRoom (startGame mockQuestions sort s) = Some playing
   ∧ currentQuestion (startGame mockQuestions sort s) = None)
  ∧ (questionIndex r + 1 < questionsPerGame (gameSettings s) →
     questionIndex <$> currentRoom (nextQuestion mockQuestions sort s)
       = Some (questionIndex r + 1)
     ∧ gameState <$> currentRoom (nextQuestion mockQuestions sort s)
       = Some (gameState r)
     ∧ currentQuestion (nextQuestion mockQuestions sort s) = None).
Proof.
  intros Hsort Hempty Hr.
  assert (Hnil : sort [] = []) by (apply Permutation_nil_r, Hsort).
  split.
  - unfold startGame. rewrite Hr, Hempty, Hnil, js_slice0_nil. simpl.
    split; reflexivity.
  - intros Hlt. unfold nextQuestion. rewrite Hr, Hempty, Hnil.
    rewrite bool_decide_eq_false_2 by lia. simpl. repeat split.
Qed.

End Lifecycle.

Lemma ten_questions_then_finished_witness :
  ∃ r10,
    currentRoom (advance sampleQuestions (replicate 10 id) playingState)
      = Some r10
    ∧ questionIndex r10 = 9
    ∧ gameState r10 = finished
    ∧ currentQuestion (advance sampleQuestions (replicate 10 id) playingState)
      = None.
Proof.
  exact (proj2 (ten_questions_then_finished sampleQuestions playingState _
                  (replicate 10 id) eq_refl eq_refl eq_refl eq_refl eq_refl)).
Defined.

Lemma empty_pool_is_tolerated_witness :
  (gameState <$> currentRoom (startGame sampleQuestions id noCategoryState)
     = Some playing
   ∧ currentQuestion (startGame sampleQuestions id noCategoryState) = None)
  ∧ questionIndex
      <$> currentRoom (nextQuestion sampleQuestions id noCategoryState)
    = Some (0 + 1)
  ∧ gameState
      <$> currentRoom (nextQuestion sampleQuestions id noCategoryState)
    = Some waiting
  ∧ currentQuestion (nextQuestion sampleQuestions id noCategoryState) = None.
Proof.
  pose proof (empty_pool_is_tolerated sampleQuestions noCategoryState _ id
                is_shuffle_id eq_refl eq_refl) as [Hstart Hnext].
  split; [exact Hstart | exact (Hnext eq_refl)].
Defined.

(** *** The order of the phases *)

Section PhaseOrder.

Variable mockQuestions : list Question.

(** C2, as amended: the calls that keep the active room, [startGame]
    apart, leave it in the same phase or a later one. [startGame] does not
    look at the phase: it puts the room in the playing phase from any
    phase, a finished one included. [nextQuestion] on a finished room
    leaves it finished, and changes nothing at all when the game ran out of
    questions (the next index reaches [questionsPerGame], no question is
    current and the results are shown). *)
Theorem phase_order_except_startGame (s : GameStore) (r : GameRoom) :
  currentRoom s = Some r →
  (∀ a, keeps_phase_order a = true →
     ∃ r', currentRoom (step mockQuestions a s) = Some r'
           ∧ room_id r' = room_id r
           ∧ (phase_rank (gameState r) ≤ phase_rank (gameState r'))%nat)
  ∧ (∀ sort,
       gameState <$> currentRoom (startGame mockQuestions sort s)
         = Some playing)
  ∧ (gameState r = finished →
     ∀ sort,
       gameState <$> currentRoom (nextQuestion mockQuestions sort s)
         = Some finished)
  ∧ (gameState r = finished →
     questionsPerGame (gameSettings s) ≤ questionIndex r + 1 →
     currentQuestion s = None →
     showResults s = true →
     ∀ sort, nextQuestion mockQuestions sort s = s).
Proof.
  intros Hr. split; [|split; [|split]].
  - intros a Ha. destruct a; try discriminate Ha; simpl.
    + exists r. auto.
    + unfold submitAnswer. rewrite Hr.
      destruct (currentUser s), (currentQuestion s); simpl;
        eexists; (split; [first [reflexivity | exact Hr]|]); auto.
    + unfold nextQuestion, endGame. rewrite Hr.
      case_bool_decide; simpl; eexists; (split; [reflexivity|]);
        simpl; split; auto using phase_rank_finished_max.
    + unfold endGame. rewrite Hr. simpl. eexists. split; [reflexivity|].
      simpl. split; auto using phase_rank_finished_max.
    + exists r. auto.
    + exists r. auto.
    + exists r. auto.
  - intros sort. unfold startGame. rewrite Hr. reflexivity.
  - intros Hfin sort. unfold nextQuestion, endGame. rewrite Hr.
    case_bool_decide; simpl; [reflexivity | congruence].
  - intros Hfin Hlimit Hq Hshow sort. unfold nextQuestion, endGame.
    rewrite Hr. rewrite bool_decide_eq_true_2 by exact Hlimit.
    rewrite <- Hfin, room_with_gameState_same.
    destruct s. simpl in *. congruence.
Qed.

(** The rooms of the lobby list never leave the waiting phase: the in-game
    calls do not write to the list, and [joinRoom] copies the phase of the
    lobby room it found. *)
Lemma lobby_rooms_stay_waiting (s : GameStore) :
  reachable mockQuestions s →
  Forall (λ r, gameState r = waiting) (availableRooms s).
Proof.
  induction 1 as [|a s Hs IH Hvalid]; [constructor|].
  destruct a; simpl; try exact IH.
  - unfold createRoom. destruct (currentUser s); [|exact IH]. simpl.
    apply Forall_app. split; [exact IH|]. constructor; [reflexivity|].
    constructor.
  - unfold joinRoom. destruct (currentUser s); [|exact IH].
    destruct (find_room roomId (availableRooms s)) as [room|] eqn:Hfind;
      [|exact IH].
    case_bool_decide; [exact IH|]. simpl.
    apply find_room_elem in Hfind as [Hin _].
    pose proof (proj1 (Forall_forall _ _) IH _ Hin) as Hroom.
    apply Forall_fmap. eapply Forall_impl; [exact IH|].
    intros r Hr. simpl. case_bool_decide; assumption.
  - unfold startGame. destruct (currentRoom s); exact IH.
  - unfold submitAnswer.
    destruct (currentUser s), (currentQuestion s), (currentRoom s); exact IH.
  - unfold nextQuestion, endGame. destruct (currentRoom s); [|exact IH].
    case_bool_decide; exact IH.
  - unfold endGame. destruct (currentRoom s); exact IH.
Qed.

End PhaseOrder.

(** Joining one's own finished room installs the lobby copy, which is still
    waiting. *)
Example rejoining_installs_waiting_copy :
  gameState <$> currentRoom (joinRoom "room1" finishedState) = Some waiting.
Proof. reflexivity. Qed.

Lemma phase_order_except_startGame_witness :
  gameState <$> currentRoom (startGame sampleQuestions id finishedState)
    = Some playing
  ∧ gameState <$> currentRoom (nextQuestion sampleQuestions id finishedState)
    = Some finished.
Proof.
  pose proof (phase_order_except_startGame sampleQuestions finishedState _
                eq_refl) as (_ & Hstart & Hnext & _).
  split; [exact (Hstart id) | exact (Hnext eq_refl id)].
Defined.

(** C2, as stated, fails: the room of [finishedState], which three calls
    after signing in lead to, is finished, and [startGame] puts it back in
    the playing phase; [nextQuestion] there moves on to index 1 with a new
    question instead of leaving the store alone. *)
Lemma finished_room_is_restarted :
  reachable sampleQuestions finishedState
  ∧ gameState <$> currentRoom finishedState = Some finished
  ∧ gameState <$> currentRoom (startGame sampleQuestions id finishedState)
    = Some playing
  ∧ startGame sampleQuestions id finishedState ≠ finishedState
  ∧ questionIndex <$> currentRoom finishedState = Some 0
  ∧ questionIndex
      <$> currentRoom (nextQuestion sampleQuestions id finishedState)
    = Some 1
  ∧ currentQuestion (nextQuestion sampleQuestions id finishedState)
    = Some q_solar
  ∧ nextQuestion sampleQuestions id finishedState ≠ finishedState.
Proof.
  split.
  { change finishedState with
      (run sampleQuestions
         [SetUser alice; CreateRoom "room1" "Green quiz" 4 false;
          StartGame id; EndGame] initialState).
    apply reachable_run; [constructor|].
    repeat constructor. exact is_shuffle_id. }
  repeat split; try reflexivity.
  - intros Heq. apply (f_equal (λ st, gameState <$> currentRoom st)) in Heq.
    discriminate Heq.
  - intros Heq. apply (f_equal currentQuestion) in Heq. discriminate Heq.
Qed.

(** ** Invariants of the rooms *)

(** A property of rooms that the in-game updates of a room cannot break is
    kept by every call that neither creates nor joins a room; creating and
    joining keep it when the room they build has it. *)
Section RoomInvariant.

Variable mockQuestions : list Question.
Variable P : GameRoom → Prop.

Hypothesis P_progress :
  ∀ g qi tr r, P r → P (room_with_progress g qi tr r).
Hypothesis P_scores : ∀ sc r, P r → P (room_with_scores sc r).

Lemma all_rooms_createRoom (newId roomName : string) (maxP : Z)
    (isPriv : bool) (s : GameStore) :
  all_rooms P s →
  (∀ u, currentUser s = Some u →
        P {| room_id := newId; room_name := roomName; players := [u];
             maxPlayers := maxP; isPrivate := isPriv; gameState := waiting;
             questionIndex := 0; timeRemaining := 0;
             scores := {[ user_id u := 0 ]} |}) →
  all_rooms P (createRoom newId roomName maxP isPriv s).
Proof.
  intros [Hcur Hlobby] Hnew. unfold createRoom.
  destruct (currentUser s) as [u|]; [|split; assumption].
  specialize (Hnew u eq_refl). split; simpl.
  - intros r [= <-]. exact Hnew.
  - apply Forall_app. split; [exact Hlobby|].
    constructor; [exact Hnew | constructor].
Qed.

Lemma all_rooms_joinRoom (roomId : string) (s : GameStore) :
  all_rooms P s →
  (∀ u room,
     currentUser s = Some u →
     find_room roomId (availableRooms s) = Some room →
     P room →
     Z.of_nat (length (players room)) < maxPlayers room →
     P (room_with_players (players room ++ [u])
          (<[ user_id u := 0 ]> (scores room)) room)) →
  all_rooms P (joinRoom roomId s).
Proof.
  intros [Hcur Hlobby] Hjoined. unfold joinRoom.
  destruct (currentUser s) as [u|]; [|split; assumption].
  destruct (find_room roomId (availableRooms s)) as [room|] eqn:Hfind;
    [|split; assumption].
  case_bool_decide as Hfull; [split; assumption|].
  assert (Hroom : P room).
  { apply find_room_elem in Hfind as [Hin _].
    exact (proj1 (Forall_forall _ _) Hlobby _ Hin). }
  specialize (Hjoined u room eq_refl eq_refl Hroom ltac:(lia)).
  split; simpl.
  - intros r [= <-]. exact Hjoined.
  - apply Forall_fmap. eapply Forall_impl; [exact Hlobby|].
    intros r Hr. simpl. case_bool_decide; assumption.
Qed.

Lemma all_rooms_other_calls (a : Action) (s : GameStore) :
  all_rooms P s →
  match a with CreateRoom _ _ _ _ | JoinRoom _ => False | _ => True end →
  all_rooms P (step mockQuestions a s).
Proof.
  intros [Hcur Hlobby] Hkind.
  destruct a; try contradiction; simpl.
  - split; assumption.
  - split; [intros r [=] | assumption].
  - split; [intros r [=] | assumption].
  - unfold startGame. destruct (currentRoom s) as [room|] eqn:Hr;
      [|split; [rewrite Hr|]; assumption].
    split; [|assumption]. simpl. intros r [= <-]. apply P_progress. auto.
  - unfold submitAnswer.
    destruct (currentUser s), (currentQuestion s),
      (currentRoom s) as [room|] eqn:Hr;
      try (split; [rewrite ?Hr|]; assumption).
    split; [|assumption]. simpl. intros r [= <-]. apply P_scores. auto.
  - unfold nextQuestion, endGame.
    destruct (currentRoom s) as [room|] eqn:Hr;
      [|split; [rewrite Hr|]; assumption].
    case_bool_decide; rewrite ?Hr; (split; [|assumption]); simpl;
      intros r [= <-]; apply P_progress; auto.
  - unfold endGame. destruct (currentRoom s) as [room|] eqn:Hr;
      [|split; [rewrite Hr|]; assumption].
    split; [|assumption]. simpl. intros r [= <-]. apply P_progress. auto.
  - split; assumption.
  - split; assumption.
  - split; assumption.
Qed.

End RoomInvariant.

Section Capacity.

Variable mockQuestions : list Question.

(** C3, as amended: every call keeps [players.length <= maxPlayers] true
    of the active room and of every lobby room, provided that rooms are
    created with [maxPlayers >= 1]. [joinRoom] on a room that is full
    returns the store as it received it. The room that [createRoom] builds
    holds its creator alone, so it is within its capacity exactly when
    [maxPlayers >= 1]. *)
Theorem capacity_kept_when_creator_fits (s : GameStore) :
  (∀ a, all_rooms within_capacity s → admits_creator a →
        all_rooms within_capacity (step mockQuestions a s))
  ∧ (∀ roomId room,
       find_room roomId (availableRooms s) = Some room →
       maxPlayers room ≤ Z.of_nat (length (players room)) →
       joinRoom roomId s = s)
  ∧ (∀ u newId roomName maxP isPriv,
       currentUser s = Some u →
       ∃ r, currentRoom (createRoom newId roomName maxP isPriv s) = Some r
            ∧ r ∈ availableRooms (createRoom newId roomName maxP isPriv s)
            ∧ players r = [u]
            ∧ maxPlayers r = maxP
            ∧ (within_capacity r ↔ 1 ≤ maxP)).
Proof.
  split; [|split].
  - intros a Hinv Hfits.
    destruct a;
      try (apply all_rooms_other_calls; [auto | auto | exact Hinv | exact I]).
    + apply all_rooms_createRoom; [exact Hinv|].
      intros u _. unfold within_capacity. simpl in *. lia.
    + apply all_rooms_joinRoom; [exact Hinv|].
      intros u room _ _ _ Hlt. unfold within_capacity. simpl.
      rewrite length_app. simpl. lia.
  - intros roomId room Hfind Hfull. unfold joinRoom. rewrite Hfind.
    destruct (currentUser s); [|reflexivity].
    rewrite bool_decide_eq_true_2 by exact Hfull. reflexivity.
  - intros u newId roomName maxP isPriv Hu. unfold createRoom. rewrite Hu.
    eexists. split; [reflexivity|]. simpl.
    split; [apply elem_of_app; right; apply list_elem_of_singleton;
            reflexivity|].
    unfold within_capacity. simpl. repeat split; lia.
Qed.

(** C7, as amended: every call other than [joinRoom] keeps the player ids
    of each room distinct, and so does [joinRoom] when its caller is not
    yet a player of the room it finds. [joinRoom] does not look for the
    caller among the players: below capacity it appends the caller in
    every case, so a caller who is a player already is listed twice. *)
Theorem unique_ids_kept_by_newcomers (s : GameStore) :
  (∀ a, all_rooms unique_ids s → joins_as_newcomer a s →
        all_rooms unique_ids (step mockQuestions a s))
  ∧ (∀ u roomId room,
       currentUser s = Some u →
       find_room roomId (availableRooms s) = Some room →
       Z.of_nat (length (players room)) < maxPlayers room →
       ∃ r', currentRoom (joinRoom roomId s) = Some r'
             ∧ players r' = players room ++ [u]
             ∧ (user_id u ∈ user_id <$> players room → ¬ unique_ids r')).
Proof.
  split.
  - intros a Hinv Hnew.
    destruct a;
      try (apply all_rooms_other_calls; [auto | auto | exact Hinv | exact I]).
    + apply all_rooms_createRoom; [exact Hinv|].
      intros u _. unfold unique_ids. simpl. apply NoDup_singleton.
    + apply all_rooms_joinRoom; [exact Hinv|].
      intros u room Hu Hfind Huniq _. unfold unique_ids in *. simpl.
      rewrite fmap_app. simpl. apply NoDup_app. split; [exact Huniq|].
      split; [|apply NoDup_singleton].
      intros x Hx Hx'. apply list_elem_of_singleton in Hx'. subst x.
      exact (Hnew u room Hu Hfind Hx).
  - intros u roomId room Hu Hfind Hlt. unfold joinRoom.
    rewrite Hu, Hfind. rewrite bool_decide_eq_false_2 by lia.
    eexists. split; [reflexivity|]. simpl. split; [reflexivity|].
    intros Hmember Huniq. unfold unique_ids in Huniq. simpl in Huniq.
    rewrite fmap_app in Huniq. apply NoDup_app in Huniq as (_ & Hdisj & _).
    apply (Hdisj _ Hmember). simpl. apply list_elem_of_singleton.
    reflexivity.
Qed.

End Capacity.

Lemma capacity_kept_when_creator_fits_witness :
  all_rooms within_capacity
    (step sampleQuestions (CreateRoom "room1" "Green quiz" 4 false)
       (setUser alice initialState)).
Proof.
  refine (proj1 (capacity_kept_when_creator_fits sampleQuestions
                   (setUser alice initialState)) _ _ _).
  - split; [intros r Hr; discriminate Hr | constructor].
  - simpl. lia.
Defined.

Lemma unique_ids_kept_by_newcomers_witness :
  all_rooms unique_ids
    (step sampleQuestions (JoinRoom "room1") (setUser bob lobbyState)).
Proof.
  refine (proj1 (unique_ids_kept_by_newcomers sampleQuestions
                   (setUser bob lobbyState)) _ _ _).
  - split.
    + intros r Hr. injection Hr as <-. unfold unique_ids. simpl.
      apply NoDup_singleton.
    + constructor; [|constructor]. unfold unique_ids. simpl.
      apply NoDup_singleton.
  - intros u room Hu Hfind. injection Hu as <-. injection Hfind as <-.
    simpl. intros Hin. apply list_elem_of_singleton in Hin.
    discriminate Hin.
Defined.

(** C3, as stated, fails: a room created with [maxPlayers = 0] holds its
    creator, one player more than it admits, in the active slot and in the
    lobby list. *)
Lemma room_for_nobody_is_overfull :
  reachable sampleQuestions overfullState
  ∧ all_rooms within_capacity (setUser alice initialState)
  ∧ overfullState =
      createRoom "room0" "Nobody" 0 false (setUser alice initialState)
  ∧ (∃ r, currentRoom overfullState = Some r
          ∧ availableRooms overfullState = [r]
          ∧ players r = [alice]
          ∧ maxPlayers r = 0)
  ∧ ¬ all_rooms within_capacity overfullState.
Proof.
  split.
  { apply reachable_run; [constructor | repeat constructor]. }
  split.
  { split; [intros r Hr; discriminate Hr | constructor]. }
  split; [reflexivity|].
  split.
  { eexists. repeat split. }
  intros [Hcur _]. specialize (Hcur _ eq_refl).
  unfold within_capacity in Hcur. simpl in Hcur. lia.
Qed.

(** C7, as stated, fails: Alice, already the one player of her room, calls
    [joinRoom] with its id and is listed twice, in the active slot and in
    the lobby list. *)
Lemma joining_twice_duplicates_player :
  reachable sampleQuestions doubledState
  ∧ all_rooms unique_ids lobbyState
  ∧ (∃ r, currentRoom doubledState = Some r
          ∧ availableRooms doubledState = [r]
          ∧ players r = [alice; alice])
  ∧ ¬ all_rooms unique_ids doubledState.
Proof.
  split.
  { change doubledState with
      (run sampleQuestions
         [SetUser alice; CreateRoom "room1" "Green quiz" 4 false;
          JoinRoom "room1"] initialState).
    apply reachable_run; [constructor | repeat constructor]. }
  split.
  { split.
    - intros r Hr. injection Hr as <-. apply NoDup_singleton.
    - constructor; [|constructor]. apply NoDup_singleton. }
  split.
  { eexists. repeat split. }
  intros [Hcur _]. specialize (Hcur _ eq_refl).
  unfold unique_ids in Hcur. simpl in Hcur.
  apply NoDup_cons in Hcur as [Hnotin _]. apply Hnotin.
  apply list_elem_of_singleton. reflexivity.
Qed.

(** ** Question selection *)

Lemma js_index_elem {A : Type} (arr : list A) (i : option Z) (x : A) :
  js_index arr i = Some x → x ∈ arr.
Proof.
  destruct i as [n|]; simpl; [|discriminate].
  destruct (n <? 0); [discriminate|]. apply list_elem_of_lookup_2.
Qed.

Lemma js_slice0_length {A : Type} (arr : list A) (e : Z) :
  Z.of_nat (length (js_slice0 arr e)) =
    if e <? 0 then Z.max (Z.of_nat (length arr) + e) 0
    else Z.min e (Z.of_nat (length arr)).
Proof.
  unfold js_slice0. rewrite length_take.
  destruct (Z.ltb_spec e 0); lia.
Qed.

Lemma js_slice0_elem {A : Type} (arr : list A) (e : Z) (x : A) :
  x ∈ js_slice0 arr e → x ∈ arr.
Proof.
  unfold js_slice0. intros Hx.
  apply list_elem_of_lookup in Hx as [i Hi].
  apply lookup_take_Some in Hi as [Hi _].
  exact (list_elem_of_lookup_2 _ _ _ Hi).
Qed.

Section Selection.

Variable mockQuestions : list Question.

Lemma filteredQuestions_elem (gs : GameSettings) (q : Question) :
  q ∈ filteredQuestions mockQuestions gs ↔
  q ∈ mockQuestions
  ∧ category q ∈ categories gs
  ∧ (difficulty gs = "mixed" ∨ question_difficulty q = difficulty gs).
Proof.
  unfold filteredQuestions. rewrite list_elem_of_filter.
  case_bool_decide as Hmixed.
  - rewrite list_elem_of_filter. tauto.
  - tauto.
Qed.

Lemma installed_question_in_pool (s : GameStore) (r : GameRoom)
    (sort : list Question → list Question) (q : Question) :
  is_shuffle sort →
  currentRoom s = Some r →
  currentQuestion (startGame mockQuestions sort s) = Some q
  ∨ currentQuestion (nextQuestion mockQuestions sort s) = Some q →
  q ∈ filteredQuestions mockQuestions (gameSettings s).
Proof.
  intros Hsort Hr Hsel.
  rewrite <- (Hsort (filteredQuestions mockQuestions (gameSettings s))).
  destruct Hsel as [Hq | Hq].
  - unfold startGame in Hq. rewrite Hr in Hq. simpl in Hq.
    apply list_elem_of_lookup_2 in Hq.
    exact (js_slice0_elem _ _ _ Hq).
  - unfold nextQuestion, endGame in Hq. rewrite Hr in Hq.
    case_bool_decide; simpl in Hq; [discriminate|].
    exact (js_index_elem _ _ _ Hq).
Qed.

(** X1: with a room active, a question that [startGame] or [nextQuestion]
    installs comes from the catalogue and passes both filters of the
    settings in force: its category is enabled, and its difficulty is the
    configured one unless that is ['mixed']. *)
Theorem selected_question_passes_filters (s : GameStore) (r : GameRoom)
    (sort : list Question → list Question) (q : Question) :
  is_shuffle sort →
  currentRoom s = Some r →
  currentQuestion (startGame mockQuestions sort s) = Some q
  ∨ currentQuestion (nextQuestion mockQuestions sort s) = Some q →
  q ∈ mockQuestions
  ∧ category q ∈ categories (gameSettings s)
  ∧ (difficulty (gameSettings s) = "mixed"
     ∨ question_difficulty q = difficulty (gameSettings s)).
Proof.
  intros Hsort Hr Hsel. apply filteredQuestions_elem.
  exact (installed_question_in_pool s r sort q Hsort Hr Hsel).
Qed.

(** X2: with a room active, [startGame] installs a question exactly when
    some question passes the filters and [slice(0, questionsPerGame)] keeps
    at least one of them: [questionsPerGame] is positive, or it is negative
    and smaller in size than the number of questions that pass. With
    [questionsPerGame = 0] the room is playing without a question. *)
Theorem startGame_installs_question_iff (s : GameStore) (r : GameRoom)
    (sort : list Question → list Question) :
  is_shuffle sort →
  currentRoom s = Some r →
  let n :=
    Z.of_nat (length (filteredQuestions mockQuestions (gameSettings s))) in
  let k := questionsPerGame (gameSettings s) in
  is_Some (currentQuestion (startGame mockQuestions sort s))
  ↔ 0 < n ∧ (0 < k ∨ (- n < k ∧ k < 0)).
Proof.
  intros Hsort Hr n k. unfold startGame. rewrite Hr. simpl.
  rewrite lookup_lt_is_Some.
  pose proof (js_slice0_length
                (sort (filteredQuestions mockQuestions (gameSettings s)))
                (questionsPerGame (gameSettings s))) as Hlen.
  rewrite (Permutation_length (Hsort _)) in Hlen. fold n k in Hlen.
  fold k. change (Z.to_nat 0) with 0%nat.
  destruct (Z.ltb_spec k 0); lia.
Qed.

(** X3: in a room at a non-negative index, below the question limit and
    with at least one question passing the filters, [nextQuestion] installs
    the question at position [(questionIndex + 1) mod length] of the
    reordered pool; the index wraps around, so a pool shorter than the game
    repeats its questions. *)
Theorem nextQuestion_wraps_around_pool (s : GameStore) (r : GameRoom)
    (sort : list Question → list Question) :
  is_shuffle sort →
  currentRoom s = Some r →
  0 ≤ questionIndex r →
  questionIndex r + 1 < questionsPerGame (gameSettings s) →
  filteredQuestions mockQuestions (gameSettings s) ≠ [] →
  let pool := filteredQuestions mockQuestions (gameSettings s) in
  ∃ q, currentQuestion (nextQuestion mockQuestions sort s) = Some q
       ∧ q ∈ pool
       ∧ sort pool
           !! Z.to_nat ((questionIndex r + 1) `mod` Z.of_nat (length pool))
         = Some q.
Proof.
  intros Hsort Hr Hidx Hlt Hne pool.
  assert (Hlen : length (sort pool) = length pool)
    by apply Permutation_length, Hsort.
  assert (Hpos : 0 < Z.of_nat (length pool)).
  { assert (length pool ≠ 0%nat)
      by (intros E; exact (Hne (nil_length_inv _ E))).
    lia. }
  pose proof (Z.mod_pos_bound (questionIndex r + 1) _ Hpos) as Hbound.
  destruct (lookup_lt_is_Some_2 (sort pool)
              (Z.to_nat ((questionIndex r + 1) `mod` Z.of_nat (length pool))))
    as [q Hq]; [lia|].
  exists q. split; [|split; [|exact Hq]].
  - unfold nextQuestion. rewrite Hr.
    rewrite bool_decide_eq_false_2 by lia. simpl. fold pool.
    unfold js_rem. rewrite Hlen.
    destruct (Z.eqb_spec (Z.of_nat (length pool)) 0) as [E|_]; [lia|].
    rewrite Z.rem_mod_nonneg by lia. simpl.
    destruct (Z.ltb_spec ((questionIndex r + 1) `mod` Z.of_nat (length pool)) 0);
      [lia | exact Hq].
  - rewrite <- (Hsort pool). exact (list_elem_of_lookup_2 _ _ _ Hq).
Qed.

End Selection.

Lemma selected_question_passes_filters_witness :
  q_paper ∈ sampleQuestions
  ∧ category q_paper ∈ categories (gameSettings lobbyState)
  ∧ (difficulty (gameSettings lobbyState) = "mixed"
     ∨ question_difficulty q_paper = difficulty (gameSettings lobbyState)).
Proof.
  exact (selected_question_passes_filters sampleQuestions lobbyState _ id
           q_paper is_shuffle_id eq_refl (or_introl eq_refl)).
Defined.

Lemma startGame_installs_question_iff_witness :
  is_Some (currentQuestion (startGame sampleQuestions id lobbyState))
  ↔ 0 < 2 ∧ (0 < 10 ∨ (- 2 < 10 ∧ 10 < 0)).
Proof.
  exact (startGame_installs_question_iff sampleQuestions lobbyState _ id
           is_shuffle_id eq_refl).
Defined.

Lemma nextQuestion_wraps_around_pool_witness :
  ∃ q, currentQuestion
         (nextQuestion sampleQuestions id
            (nextQuestion sampleQuestions id playingState)) = Some q
       ∧ q ∈ sampleQuestions
       ∧ sampleQuestions !! 0%nat = Some q.
Proof.
  refine (nextQuestion_wraps_around_pool sampleQuestions
            (nextQuestion sampleQuestions id playingState) _ id
            is_shuffle_id eq_refl _ _ _).
  - simpl. lia.
  - reflexivity.
  - discriminate.
Defined.

(** ** Invariants of the reachable states *)

Lemma pristine_joined (u : User) (room : GameRoom) :
  pristine room →
  pristine (room_with_players (players room ++ [u])
              (<[ user_id u := 0 ]> (scores room)) room).
Proof.
  intros (Hphase & Hidx & Htime & Hscores). repeat split; simpl; try assumption.
  apply map_Forall_insert_2; [reflexivity | exact Hscores].
Qed.

Section Reachable.

Variable mockQuestions : list Question.

(** X4: in every reachable state the rooms of the lobby list are as
    [createRoom] and [joinRoom] left them (waiting, at index 0, with no time
    on the clock and every score at 0, whatever was played in them), and the
    question index of the active room is not negative. *)
Theorem lobby_pristine_and_index_nonneg (s : GameStore) :
  reachable mockQuestions s →
  Forall pristine (availableRooms s)
  ∧ (∀ r, currentRoom s = Some r → 0 ≤ questionIndex r).
Proof.
  induction 1 as [|a s Hs [Hlobby Hidx] Hvalid].
  { split; [constructor | intros r Hr; discriminate Hr]. }
  split.
  - destruct a; simpl; try exact Hlobby.
    + unfold createRoom. destruct (currentUser s); [|exact Hlobby]. simpl.
      apply Forall_app. split; [exact Hlobby|].
      constructor; [|constructor]. repeat split; simpl.
      apply map_Forall_singleton. reflexivity.
    + unfold joinRoom. destruct (currentUser s) as [u|]; [|exact Hlobby].
      destruct (find_room roomId (availableRooms s)) as [room|] eqn:Hfind;
        [|exact Hlobby].
      case_bool_decide; [exact Hlobby|]. simpl.
      apply find_room_elem in Hfind as [Hin _].
      pose proof (proj1 (Forall_forall _ _) Hlobby _ Hin) as Hroom.
      apply Forall_fmap. eapply Forall_impl; [exact Hlobby|].
      intros r Hr. simpl.
      case_bool_decide; [apply pristine_joined, Hroom | exact Hr].
    + unfold startGame. destruct (currentRoom s); exact Hlobby.
    + unfold submitAnswer.
      destruct (currentUser s), (currentQuestion s), (currentRoom s);
        exact Hlobby.
    + unfold nextQuestion, endGame.
      destruct (currentRoom s); [|exact Hlobby].
      case_bool_decide; exact Hlobby.
    + unfold endGame. destruct (currentRoom s); exact Hlobby.
  - intros r'. destruct a; simpl; try exact (Hidx r'); try discriminate.
    + unfold createRoom. destruct (currentUser s); [|exact (Hidx r')].
      simpl. intros [= <-]. simpl. lia.
    + unfold joinRoom. destruct (currentUser s) as [u|]; [|exact (Hidx r')].
      destruct (find_room roomId (availableRooms s)) as [room|] eqn:Hfind;
        [|exact (Hidx r')].
      case_bool_decide; [exact (Hidx r')|]. simpl. intros [= <-]. simpl.
      apply find_room_elem in Hfind as [Hin _].
      destruct (proj1 (Forall_forall _ _) Hlobby _ Hin) as (_ & -> & _).
      lia.
    + unfold startGame. destruct (currentRoom s) as [room|] eqn:Hr.
      * simpl. intros [= <-]. simpl. lia.
      * rewrite Hr. discriminate.
    + unfold submitAnswer.
      destruct (currentUser s), (currentQuestion s),
        (currentRoom s) as [room|] eqn:Hr;
        try (rewrite ?Hr; first [discriminate | exact (Hidx r')]);
        simpl; intros [= <-]; exact (Hidx _ eq_refl).
    + unfold nextQuestion, endGame.
      destruct (currentRoom s) as [room|] eqn:Hr;
        [|rewrite Hr; discriminate].
      pose proof (Hidx _ eq_refl).
      case_bool_decide; simpl; intros [= <-]; simpl; lia.
    + unfold endGame. destruct (currentRoom s) as [room|] eqn:Hr;
        [|rewrite Hr; discriminate].
      simpl. intros [= <-]. simpl. exact (Hidx _ eq_refl).
Qed.

End Reachable.

(** Calls that touch the active room through [room_with_progress] only, or
    not at all, keep a property of rooms that such an update cannot break;
    [submitAnswer] keeps it when the room with the new score has it. *)
Section ProgressInvariant.

Variable mockQuestions : list Question.
Variable P : GameRoom → Prop.

Hypothesis P_progress :
  ∀ g qi tr r, P r → P (room_with_progress g qi tr r).

Lemma all_rooms_progress_calls (a : Action) (s : GameStore) :
  all_rooms P s →
  match a with
  | CreateRoom _ _ _ _ | JoinRoom _ | SubmitAnswer _ _ => False
  | _ => True
  end →
  all_rooms P (step mockQuestions a s).
Proof.
  intros [Hcur Hlobby] Hkind.
  destruct a; try contradiction; simpl;
    try (split; [first [assumption | intros r [=]] | assumption]).
  - unfold startGame. destruct (currentRoom s) as [room|] eqn:Hr;
      [|split; [rewrite Hr|]; assumption].
    split; [|assumption]. simpl. intros r [= <-]. apply P_progress. auto.
  - unfold nextQuestion, endGame.
    destruct (currentRoom s) as [room|] eqn:Hr;
      [|split; [rewrite Hr|]; assumption].
    case_bool_decide; rewrite ?Hr; (split; [|assumption]); simpl;
      intros r [= <-]; apply P_progress; auto.
  - unfold endGame. destruct (currentRoom s) as [room|] eqn:Hr;
      [|split; [rewrite Hr|]; assumption].
    split; [|assumption]. simpl. intros r [= <-]. apply P_progress. auto.
Qed.

Lemma all_rooms_submitAnswer (answer_index time_spent : Z) (s : GameStore) :
  all_rooms P s →
  (∀ u q r,
     currentUser s = Some u → currentQuestion s = Some q →
     currentRoom s = Some r → P r →
     P (room_with_scores
          (<[ user_id u :=
                default 0 (scores r !! user_id u)
                + (if bool_decide (answer_index = correctAnswer q)
                   then question_points q + Z.max 0 ((30 - time_spent) * 2)
                   else 0) ]> (scores r)) r)) →
  all_rooms P (submitAnswer answer_index time_spent s).
Proof.
  intros [Hcur Hlobby] Hnew. unfold submitAnswer.
  destruct (currentUser s) as [u|]; [|split; assumption].
  destruct (currentQuestion s) as [q|]; [|split; assumption].
  destruct (currentRoom s) as [r|] eqn:Hr; [|split; [rewrite Hr|]; assumption].
  split; [|assumption]. simpl. intros r' [= <-].
  rewrite js_or0_default. apply (Hnew u q r); auto.
Qed.

End ProgressInvariant.

Section Scores.

Variable mockQuestions : list Question.

(** X5: in every reachable state the current question, when there is one,
    is a question of the catalogue; and when no question of the catalogue
    has negative points, no score of any room is negative. *)
Theorem scores_never_negative (s : GameStore) :
  (∀ q, q ∈ mockQuestions → 0 ≤ question_points q) →
  reachable mockQuestions s →
  (∀ q, currentQuestion s = Some q → q ∈ mockQuestions)
  ∧ all_rooms nonneg_scores s.
Proof.
  intros Hpts Hreach.
  induction Hreach as [|a s Hs [Hq Hinv] Hvalid].
  { split; [intros q Hq; discriminate Hq|].
    split; [intros r Hr; discriminate Hr | constructor]. }
  split.
  - intros q. destruct a; simpl; try exact (Hq q); try discriminate.
    + unfold createRoom. destruct (currentUser s); exact (Hq q).
    + unfold joinRoom. destruct (currentUser s); [|exact (Hq q)].
      destruct (find_room roomId (availableRooms s)); [|exact (Hq q)].
      case_bool_decide; exact (Hq q).
    + destruct (currentRoom s) as [r|] eqn:Hr.
      * intros Hsel.
        apply (filteredQuestions_elem mockQuestions (gameSettings s)).
        exact (installed_question_in_pool mockQuestions s r sort q Hvalid Hr
                 (or_introl Hsel)).
      * unfold startGame. rewrite Hr. exact (Hq q).
    + unfold submitAnswer.
      destruct (currentUser s), (currentQuestion s) eqn:Hcq, (currentRoom s);
        rewrite ?Hcq; simpl; first [exact (Hq q) | discriminate].
    + destruct (currentRoom s) as [r|] eqn:Hr.
      * intros Hsel.
        apply (filteredQuestions_elem mockQuestions (gameSettings s)).
        exact (installed_question_in_pool mockQuestions s r sort q Hvalid Hr
                 (or_intror Hsel)).
      * unfold nextQuestion. rewrite Hr. exact (Hq q).
    + unfold endGame. destruct (currentRoom s); [discriminate | exact (Hq q)].
  - destruct a;
      try (apply all_rooms_progress_calls; [auto | exact Hinv | exact I]).
    + apply all_rooms_createRoom; [exact Hinv|].
      intros u _. unfold nonneg_scores. simpl.
      apply map_Forall_singleton. lia.
    + apply all_rooms_joinRoom; [exact Hinv|].
      intros u room _ _ Hroom _. unfold nonneg_scores in *. simpl.
      apply map_Forall_insert_2; [lia | exact Hroom].
    + apply all_rooms_submitAnswer; [exact Hinv|].
      intros u q r _ Hcq _ Hroom. unfold nonneg_scores in *. simpl.
      apply map_Forall_insert_2; [|exact Hroom].
      pose proof (Hpts q (Hq q Hcq)) as Hqpts.
      assert (0 ≤ default 0 (scores r !! user_id u)) as Hold.
      { destruct (scores r !! user_id u) as [v|] eqn:Hv; simpl; [|lia].
        exact (map_Forall_lookup_1 _ _ _ _ Hroom Hv). }
      case_bool_decide; lia.
Qed.

(** X6: every call keeps each player of each room, active or in the lobby
    list, with an entry in the room's score map. *)
Theorem players_keep_score_entries (a : Action) (s : GameStore) :
  all_rooms scored_players s →
  all_rooms scored_players (step mockQuestions a s).
Proof.
  intros Hinv.
  destruct a;
    try (apply all_rooms_progress_calls; [auto | exact Hinv | exact I]).
  - apply all_rooms_createRoom; [exact Hinv|].
    intros u _ p Hp. simpl in *. apply list_elem_of_singleton in Hp as ->.
    rewrite lookup_singleton_eq. eauto.
  - apply all_rooms_joinRoom; [exact Hinv|].
    intros u room _ _ Hroom _ p Hp. simpl in *.
    apply lookup_insert_is_Some'.
    apply elem_of_app in Hp as [Hp | Hp]; [right; exact (Hroom p Hp)|].
    apply list_elem_of_singleton in Hp as ->. left. reflexivity.
  - apply all_rooms_submitAnswer; [exact Hinv|].
    intros u q r _ _ _ Hroom p Hp. simpl in *.
    apply lookup_insert_is_Some'. right. exact (Hroom p Hp).
Qed.

End Scores.

Lemma scores_never_negative_witness :
  (∀ q, currentQuestion answeredState = Some q → q ∈ sampleQuestions)
  ∧ all_rooms nonneg_scores answeredState.
Proof.
  apply (scores_never_negative sampleQuestions answeredState).
  - intros q Hq. unfold sampleQuestions in Hq.
    apply elem_of_cons in Hq as [-> | Hq]; [simpl; lia|].
    apply list_elem_of_singleton in Hq as ->. simpl. lia.
  - apply reachable_run; [constructor|].
    repeat constructor. exact is_shuffle_id.
Defined.

Lemma players_keep_score_entries_witness :
  all_rooms scored_players
    (step sampleQuestions (JoinRoom "room1") (setUser bob lobbyState)).
Proof.
  apply (players_keep_score_entries sampleQuestions).
  assert (Hroom : ∀ sc : Z, scored_players
            {| room_id := "room1"; room_name := "Green quiz";
               players := [alice]; maxPlayers := 4; isPrivate := false;
               gameState := waiting; questionIndex := 0; timeRemaining := 0;
               scores := {[ "u1" := sc ]} |}).
  { intros sc p Hp. simpl in *. apply list_elem_of_singleton in Hp as ->.
    simpl. rewrite lookup_singleton_eq. eauto. }
  split.
  - intros r Hr. injection Hr as <-. apply Hroom.
  - constructor; [apply Hroom | constructor].
Defined.

(** ** The session as a whole *)

(** Unfolds a call and splits on every guard it tests. *)
Ltac break_call s :=
  unfold createRoom, joinRoom, startGame, submitAnswer, nextQuestion, endGame;
  destruct (currentUser s) eqn:?;
  destruct (currentQuestion s) eqn:?;
  destruct (currentRoom s) eqn:?;
  repeat match goal with
         | |- context [find_room ?i ?l] => destruct (find_room i l) eqn:?
         end;
  repeat case_bool_decide; simpl.

Section Session.

Variable mockQuestions : list Question.

(** Only [setUser] and [logout] write the user and the authentication
    flag. *)
Lemma step_keeps_user (a : Action) (s : GameStore) :
  match a with SetUser _ | Logout => False | _ => True end →
  currentUser (step mockQuestions a s) = currentUser s
  ∧ isAuthenticated (step mockQuestions a s) = isAuthenticated s.
Proof.
  destruct a; try contradiction; intros _; simpl;
    try (split; reflexivity); break_call s; split; congruence.
Qed.

(** X7: in every reachable state [isAuthenticated] is true exactly when a
    current user is set. *)
Theorem authenticated_iff_user (s : GameStore) :
  reachable mockQuestions s →
  isAuthenticated s = true ↔ is_Some (currentUser s).
Proof.
  induction 1 as [|a s Hs IH Hvalid].
  { simpl. split; [discriminate | intros [u Hu]; discriminate Hu]. }
  destruct a;
    try (match goal with
         | |- context [step _ ?a s] =>
             destruct (step_keeps_user a s I) as [Hu Ha]
         end; rewrite Hu, Ha; exact IH); simpl.
  - split; [intros _; eexists; reflexivity | reflexivity].
  - split; [discriminate | intros [u Hu]; discriminate Hu].
Qed.

(** X8: in every reachable state without an active room there is no current
    question, the answer log is empty and the results are not shown. *)
Theorem no_room_no_game (s : GameStore) :
  reachable mockQuestions s →
  currentRoom s = None →
  currentQuestion s = None ∧ playerAnswers s = [] ∧ showResults s = false.
Proof.
  induction 1 as [|a s Hs IH Hvalid]; [auto|].
  destruct a; simpl; try exact IH; auto;
    break_call s; intros Hnone; try congruence;
    (destruct IH as (Hq & Hlog & Hshow); [congruence|]);
    repeat split; congruence.
Qed.

End Session.

Lemma answeredState_reachable : reachable sampleQuestions answeredState.
Proof.
  apply reachable_run; [constructor|].
  repeat constructor. exact is_shuffle_id.
Qed.

Lemma lobby_pristine_and_index_nonneg_witness :
  Forall pristine (availableRooms answeredState)
  ∧ (∀ r, currentRoom answeredState = Some r → 0 ≤ questionIndex r).
Proof.
  exact (lobby_pristine_and_index_nonneg sampleQuestions answeredState
           answeredState_reachable).
Defined.

Lemma authenticated_iff_user_witness :
  isAuthenticated answeredState = true ↔ is_Some (currentUser answeredState).
Proof.
  exact (authenticated_iff_user sampleQuestions answeredState
           answeredState_reachable).
Defined.

Lemma no_room_no_game_witness :
  currentQuestion (submitAnswer 1 10 (leaveRoom answeredState)) = None
  ∧ playerAnswers (submitAnswer 1 10 (leaveRoom answeredState)) = []
  ∧ showResults (submitAnswer 1 10 (leaveRoom answeredState)) = false.
Proof.
  apply (no_room_no_game sampleQuestions); [|reflexivity].
  apply (reachable_step sampleQuestions (SubmitAnswer 1 10)); [|exact I].
  apply (reachable_step sampleQuestions LeaveRoom); [|exact I].
  exact answeredState_reachable.
Defined.

(** ** Looking rooms up in the lobby list *)

Lemma find_room_app (roomId : string) (l1 l2 : list GameRoom) :
  find_room roomId (l1 ++ l2) =
    match find_room roomId l1 with
    | Some r => Some r
    | None => find_room roomId l2
    end.
Proof.
  unfold find_room. induction l1 as [|r l1 IH]; [reflexivity|].
  rewrite <- app_comm_cons. cbn [List.find].
  destruct (bool_decide (room_id r = roomId)); [reflexivity | exact IH].
Qed.

Lemma find_room_replace (roomId : string) (upd : GameRoom)
    (rooms : list GameRoom) :
  room_id upd = roomId →
  find_room roomId
    ((λ r, if bool_decide (room_id r = roomId) then upd else r) <$> rooms)
  = (λ _, upd) <$> find_room roomId rooms.
Proof.
  intros Hid. unfold find_room.
  induction rooms as [|r rooms IH]; [reflexivity|].
  rewrite fmap_cons. cbn [List.find].
  destruct (bool_decide (room_id r = roomId)) eqn:Hr.
  - rewrite bool_decide_eq_true_2 by exact Hid. reflexivity.
  - rewrite Hr. exact IH.
Qed.

Lemma find_room_replace_other (other roomId : string) (upd : GameRoom)
    (rooms : list GameRoom) :
  room_id upd = roomId → other ≠ roomId →
  find_room other
    ((λ r, if bool_decide (room_id r = roomId) then upd else r) <$> rooms)
  = find_room other rooms.
Proof.
  intros Hid Hne. unfold find_room.
  induction rooms as [|r rooms IH]; [reflexivity|].
  rewrite fmap_cons. cbn [List.find].
  destruct (decide (room_id r = roomId)) as [Hr | Hr].
  - rewrite (bool_decide_eq_true_2 (room_id r = roomId)) by exact Hr.
    rewrite (bool_decide_eq_false_2 (room_id upd = other)) by congruence.
    rewrite (bool_decide_eq_false_2 (room_id r = other)) by congruence.
    exact IH.
  - rewrite (bool_decide_eq_false_2 (room_id r = roomId)) by exact Hr.
    destruct (bool_decide (room_id r = other)); [reflexivity | exact IH].
Qed.

Lemma room_ids_replace (roomId : string) (upd : GameRoom)
    (rooms : list GameRoom) :
  room_id upd = roomId →
  room_id <$>
    ((λ r, if bool_decide (room_id r = roomId) then upd else r) <$> rooms)
  = room_id <$> rooms.
Proof.
  intros Hid. rewrite <- list_fmap_compose. apply list_fmap_ext.
  intros i r _. simpl. case_bool_decide; congruence.
Qed.

(** X9: a [joinRoom] that succeeds puts the same updated room (the lobby
    room with the caller appended and the caller's score at 0) in the active
    slot and in the lobby list: looking the id up afterwards finds it,
    every lobby room of that id is that room, rooms of other ids are found
    as before, and the list has the length it had. *)
Theorem joinRoom_updates_both_copies (s : GameStore) (u : User)
    (roomId : string) (room : GameRoom) :
  currentUser s = Some u →
  find_room roomId (availableRooms s) = Some room →
  Z.of_nat (length (players room)) < maxPlayers room →
  let s' := joinRoom roomId s in
  let joined :=
    room_with_players (players room ++ [u])
      (<[ user_id u := 0 ]> (scores room)) room in
  currentRoom s' = Some joined
  ∧ find_room roomId (availableRooms s') = Some joined
  ∧ (∀ r, r ∈ availableRooms s' → room_id r = roomId → r = joined)
  ∧ (∀ other, other ≠ roomId →
       find_room other (availableRooms s') =
       find_room other (availableRooms s))
  ∧ length (availableRooms s') = length (availableRooms s)
  ∧ scores joined !! user_id u = Some 0.
Proof.
  intros Hu Hfind Hlt s' joined.
  assert (Hid : room_id joined = roomId)
    by exact (proj2 (find_room_elem _ _ _ Hfind)).
  assert (Hs' : s' =
    {| currentUser := currentUser s; isAuthenticated := isAuthenticated s;
       currentRoom := Some joined;
       availableRooms :=
         (λ r, if bool_decide (room_id r = roomId) then joined else r)
           <$> availableRooms s;
       currentQuestion := currentQuestion s;
       playerAnswers := playerAnswers s;
       gameSettings := gameSettings s; isLoading := isLoading s;
       error := error s; showResults := showResults s |}).
  { subst s'. unfold joinRoom. rewrite Hu, Hfind.
    rewrite bool_decide_eq_false_2 by lia. reflexivity. }
  rewrite Hs'. simpl. split; [reflexivity|]. split; [|split; [|split; [|split]]].
  - rewrite (find_room_replace _ _ _ Hid), Hfind. reflexivity.
  - intros r Hr Hrid. apply list_elem_of_fmap in Hr as (r0 & -> & _).
    case_bool_decide as Hr0; [reflexivity | contradiction].
  - intros other Hne. exact (find_room_replace_other _ _ _ _ Hid Hne).
  - apply length_fmap.
  - apply lookup_insert_eq.
Qed.

(** X10: [createRoom] appends the new room behind the rooms already listed
    and never checks its random id against them. Looking the id up finds
    the new room when the id was not in use, and finds the older room when
    it was; rooms of other ids are found as before. *)
Theorem createRoom_found_unless_id_taken (s : GameStore) (u : User)
    (newId roomName : string) (maxP : Z) (isPriv : bool) :
  currentUser s = Some u →
  let s' := createRoom newId roomName maxP isPriv s in
  (find_room newId (availableRooms s) = None →
     find_room newId (availableRooms s') = currentRoom s'
     ∧ is_Some (currentRoom s'))
  ∧ (∀ old, find_room newId (availableRooms s) = Some old →
       find_room newId (availableRooms s') = Some old)
  ∧ (∀ other, other ≠ newId →
       find_room other (availableRooms s') =
       find_room other (availableRooms s)).
Proof.
  intros Hu s'. subst s'. unfold createRoom. rewrite Hu. simpl.
  split; [|split].
  - intros Hfresh. rewrite find_room_app, Hfresh. unfold find_room. simpl.
    rewrite bool_decide_eq_true_2 by reflexivity. eauto.
  - intros old Hold. rewrite find_room_app, Hold. reflexivity.
  - intros other Hne. rewrite find_room_app.
    destruct (find_room other (availableRooms s)); [reflexivity|].
    unfold find_room. simpl.
    rewrite bool_decide_eq_false_2 by congruence. reflexivity.
Qed.

Lemma joinRoom_updates_both_copies_witness :
  find_room "room1"
    (availableRooms (joinRoom "room1" (setUser bob lobbyState)))
  = currentRoom (joinRoom "room1" (setUser bob lobbyState)).
Proof.
  pose proof (joinRoom_updates_both_copies (setUser bob lobbyState) bob
                "room1" _ eq_refl eq_refl eq_refl) as (Hcur & Hfound & _).
  exact (eq_trans Hfound (eq_sym Hcur)).
Defined.

Lemma createRoom_found_unless_id_taken_witness :
  find_room "room1"
    (availableRooms
       (createRoom "room1" "Second" 2 true (setUser bob lobbyState)))
  = currentRoom lobbyState.
Proof.
  exact (proj1 (proj2 (createRoom_found_unless_id_taken
                         (setUser bob lobbyState) bob "room1" "Second" 2 true
                         eq_refl)) _ eq_refl).
Defined.

Section LobbyList.

Variable mockQuestions : list Question.

Lemma step_lobby_ids (a : Action) (s : GameStore) :
  ∃ tail, room_id <$> availableRooms (step mockQuestions a s)
          = (room_id <$> availableRooms s) ++ tail
          ∧ (length tail ≤ 1)%nat.
Proof.
  destruct a; simpl;
    try (exists []; rewrite app_nil_r; split; [reflexivity | simpl; lia]).
  - unfold createRoom. destruct (currentUser s).
    + exists [newId]. simpl. rewrite fmap_app. split; [reflexivity | lia].
    + exists []. rewrite app_nil_r. split; [reflexivity | simpl; lia].
  - exists []. rewrite app_nil_r. split; [|simpl; lia].
    unfold joinRoom. destruct (currentUser s); [|reflexivity].
    destruct (find_room roomId (availableRooms s)) eqn:Hfind; [|reflexivity].
    case_bool_decide; [reflexivity|]. simpl.
    apply room_ids_replace. exact (proj2 (find_room_elem _ _ _ Hfind)).
  - exists []. rewrite app_nil_r. split; [|simpl; lia].
    unfold startGame. destruct (currentRoom s); reflexivity.
  - exists []. rewrite app_nil_r. split; [|simpl; lia].
    unfold submitAnswer.
    destruct (currentUser s), (currentQuestion s), (currentRoom s);
      reflexivity.
  - exists []. rewrite app_nil_r. split; [|simpl; lia].
    unfold nextQuestion, endGame. destruct (currentRoom s); [|reflexivity].
    case_bool_decide; reflexivity.
  - exists []. rewrite app_nil_r. split; [|simpl; lia].
    unfold endGame. destruct (currentRoom s); reflexivity.
Qed.

(** X11: no sequence of calls removes a room from the lobby list or moves
    one: the ids listed before are a prefix of the ids listed after, and the
    list grows by at most one room per call. *)
Theorem lobby_only_grows (acts : list Action) (s : GameStore) :
  (room_id <$> availableRooms s)
    `prefix_of` (room_id <$> availableRooms (run mockQuestions acts s))
  ∧ (length (availableRooms (run mockQuestions acts s))
     ≤ length (availableRooms s) + length acts)%nat.
Proof.
  revert s. induction acts as [|a acts IH]; intros s.
  - simpl. split; [reflexivity | lia].
  - destruct (step_lobby_ids a s) as (tail & Hids & Htail).
    destruct (IH (step mockQuestions a s)) as [Hpre Hlen].
    change (run mockQuestions (a :: acts) s)
      with (run mockQuestions acts (step mockQuestions a s)).
    split.
    + etrans; [|exact Hpre]. rewrite Hids. apply prefix_app_r. reflexivity.
    + apply (f_equal length) in Hids.
      rewrite length_app, !length_fmap in Hids. simpl. lia.
Qed.

End LobbyList.

(** ** More on answers *)

(** X12: for the same question and the same answer, a faster submission
    never earns less than a slower one; a right answer given at a
    non-negative time earns at least the points of the question and at most
    60 more. *)
Theorem faster_answer_earns_no_less (s : GameStore) (u : User)
    (q : Question) (r : GameRoom) (answer_index t1 t2 : Z) :
  currentUser s = Some u →
  currentQuestion s = Some q →
  currentRoom s = Some r →
  t1 ≤ t2 →
  ∃ p1 p2,
    points <$> last (playerAnswers (submitAnswer answer_index t1 s)) = Some p1
    ∧ points <$> last (playerAnswers (submitAnswer answer_index t2 s))
      = Some p2
    ∧ p2 ≤ p1
    ∧ (answer_index = correctAnswer q → 0 ≤ t1 →
       question_points q ≤ p1 ≤ question_points q + 60).
Proof.
  intros Hu Hq Hr Hle. unfold submitAnswer. rewrite Hu, Hq, Hr. simpl.
  rewrite !last_snoc. simpl. do 2 eexists.
  split; [reflexivity|]. split; [reflexivity|].
  case_bool_decide; split; lia.
Qed.

(** X13: a [submitAnswer] that goes through rewrites, in the active room,
    the caller's score and nothing else: the players, the limit, the phase,
    the index and the clock of the room are those it had, and so is every
    other player's score; the question stays current and the settings stay
    in force. *)
Theorem submitAnswer_touches_only_callers_score (s : GameStore) (u : User)
    (q : Question) (r : GameRoom) (answer_index time_spent : Z) :
  currentUser s = Some u →
  currentQuestion s = Some q →
  currentRoom s = Some r →
  let s' := submitAnswer answer_index time_spent s in
  ∃ r', currentRoom s' = Some r'
        ∧ room_with_scores (scores r) r' = r
        ∧ (∀ k, k ≠ user_id u → scores r' !! k = scores r !! k)
        ∧ is_Some (scores r' !! user_id u)
        ∧ currentQuestion s' = Some q
        ∧ currentUser s' = Some u
        ∧ gameSettings s' = gameSettings s.
Proof.
  intros Hu Hq Hr s'. subst s'. unfold submitAnswer. rewrite Hu, Hq, Hr.
  eexists. split; [reflexivity|]. simpl.
  split; [destruct r; reflexivity|].
  split; [intros k Hk; apply lookup_insert_ne; congruence|].
  split; [rewrite lookup_insert_eq; eauto|].
  repeat split; assumption.
Qed.

Lemma faster_answer_earns_no_less_witness :
  ∃ p1 p2,
    points <$> last (playerAnswers (submitAnswer 1 10 playingState)) = Some p1
    ∧ points <$> last (playerAnswers (submitAnswer 1 20 playingState))
      = Some p2
    ∧ p2 ≤ p1
    ∧ (1 = correctAnswer q_paper → 0 ≤ 10 →
       question_points q_paper ≤ p1 ≤ question_points q_paper + 60).
Proof.
  refine (faster_answer_earns_no_less playingState alice q_paper _ 1 10 20
            eq_refl eq_refl eq_refl _).
  lia.
Defined.

Lemma submitAnswer_touches_only_callers_score_witness :
  ∃ r', currentRoom (submitAnswer 1 10 playingState) = Some r'
        ∧ room_with_scores {[ "u1" := 0 ]} r' =
            room_with_progress playing 0 30
              {| room_id := "room1"; room_name := "Green quiz";
                 players := [alice]; maxPlayers := 4; isPrivate := false;
                 gameState := waiting; questionIndex := 0;
                 timeRemaining := 0; scores := {[ "u1" := 0 ]} |}
        ∧ (∀ k, k ≠ "u1" →
             scores r' !! k = ({[ "u1" := 0 ]} : gmap string Z) !! k)
        ∧ is_Some (scores r' !! "u1")
        ∧ currentQuestion (submitAnswer 1 10 playingState) = Some q_paper
        ∧ currentUser (submitAnswer 1 10 playingState) = Some alice
        ∧ gameSettings (submitAnswer 1 10 playingState)
          = gameSettings playingState.
Proof.
  exact (submitAnswer_touches_only_callers_score playingState alice q_paper
           _ 1 10 eq_refl eq_refl eq_refl).
Defined.

(** ** More on the lifecycle *)

Section GameLength.

Variable mockQuestions : list Question.

(** X14: a game lasts [questionsPerGame] calls of [nextQuestion]. From any
    store with an active room and [questionsPerGame = n >= 1], after
    [startGame] the room is playing at index [k] after [k < n] calls, and
    the [n]-th call finishes it at index [n - 1], clears the question and
    shows the results. *)
Theorem game_lasts_questionsPerGame_calls (s : GameStore) (r : GameRoom)
    (first : list Question → list Question)
    (sorts : list (list Question → list Question)) :
  currentRoom s = Some r →
  1 ≤ questionsPerGame (gameSettings s) →
  Z.of_nat (length sorts) = questionsPerGame (gameSettings s) →
  let started := startGame mockQuestions first s in
  (∀ k, Z.of_nat k < questionsPerGame (gameSettings s) →
     ∃ rk, currentRoom (advance mockQuestions (take k sorts) started)
             = Some rk
           ∧ questionIndex rk = Z.of_nat k
           ∧ gameState rk = playing)
  ∧ (∃ rn, currentRoom (advance mockQuestions sorts started) = Some rn
           ∧ questionIndex rn = questionsPerGame (gameSettings s) - 1
           ∧ gameState rn = finished
           ∧ currentQuestion (advance mockQuestions sorts started) = None
           ∧ showResults (advance mockQuestions sorts started) = true).
Proof.
  intros Hr Hn Hlen started.
  set (r0 := room_with_progress playing 0
               (timePerQuestion (gameSettings s)) r).
  assert (Hr0 : currentRoom started = Some r0)
    by (subst started; unfold startGame; rewrite Hr; reflexivity).
  assert (Hgs : gameSettings started = gameSettings s)
    by (subst started; unfold startGame; rewrite Hr; reflexivity).
  assert (Hfirst : ∀ k, Z.of_nat k < questionsPerGame (gameSettings s) →
    ∃ rk, currentRoom (advance mockQuestions (take k sorts) started) = Some rk
          ∧ questionIndex rk = Z.of_nat k
          ∧ gameState rk = playing
          ∧ gameSettings (advance mockQuestions (take k sorts) started)
            = gameSettings s).
  { intros k Hk.
    destruct (advance_below_limit mockQuestions (take k sorts) started r0 Hr0)
      as (rk & Hrk & Hik & Hpk & Hgk).
    { rewrite length_take, Hgs. simpl. lia. }
    rewrite length_take in Hik. simpl in Hik.
    exists rk. repeat split; [exact Hrk | lia | exact Hpk | congruence]. }
  split.
  - intros k Hk. destruct (Hfirst k Hk) as (rk & ? & ? & ? & _).
    exists rk. repeat split; assumption.
  - destruct (Hfirst (pred (length sorts)))
      as (rl & Hrl & Hil & Hpl & Hgl); [lia|].
    destruct (lookup_lt_is_Some_2 sorts (pred (length sorts)))
      as [final Hfinal]; [lia|].
    assert (Hsplit : sorts = take (pred (length sorts)) sorts ++ [final]).
    { rewrite <- (take_S_r _ _ _ Hfinal). symmetry. apply take_ge. lia. }
    assert (Hadv : advance mockQuestions sorts started =
                     nextQuestion mockQuestions final
                       (advance mockQuestions
                          (take (pred (length sorts)) sorts) started)).
    { rewrite Hsplit at 1. unfold advance. rewrite foldl_app. reflexivity. }
    rewrite Hadv.
    set (sl := advance mockQuestions _ started) in *.
    unfold nextQuestion. rewrite Hrl.
    rewrite bool_decide_eq_true_2 by (rewrite Hgl; lia).
    unfold endGame. rewrite Hrl. simpl.
    eexists. split; [reflexivity|]. simpl. repeat split. lia.
Qed.

End GameLength.

Lemma game_lasts_questionsPerGame_calls_witness :
  ∃ rn,
    currentRoom
      (advance sampleQuestions (replicate 5 id)
         (startGame sampleQuestions id
            (setGameSettings onlyQuestionsPerGame5 lobbyState))) = Some rn
    ∧ questionIndex rn = 5 - 1
    ∧ gameState rn = finished
    ∧ currentQuestion
        (advance sampleQuestions (replicate 5 id)
           (startGame sampleQuestions id
              (setGameSettings onlyQuestionsPerGame5 lobbyState))) = None
    ∧ showResults
        (advance sampleQuestions (replicate 5 id)
           (startGame sampleQuestions id
              (setGameSettings onlyQuestionsPerGame5 lobbyState))) = true.
Proof.
  refine (proj2 (game_lasts_questionsPerGame_calls sampleQuestions
                   (setGameSettings onlyQuestionsPerGame5 lobbyState) _ id
                   (replicate 5 id) eq_refl _ eq_refl)).
  simpl. lia.
Defined.

Section LeavingAndRestarting.

Variable mockQuestions : list Question.

(** X15: [leaveRoom] and [logout] clear the game and leave the lobby list
    alone. Leaving twice is leaving once, [logout] after or before
    [leaveRoom] is [logout], and once the room is left the in-game calls do
    nothing. *)
Theorem leaving_clears_the_game_only (s : GameStore)
    (sort : list Question → list Question) (answer_index time_spent : Z) :
  leaveRoom (leaveRoom s) = leaveRoom s
  ∧ logout (leaveRoom s) = logout s
  ∧ leaveRoom (logout s) = logout s
  ∧ logout (logout s) = logout s
  ∧ availableRooms (leaveRoom s) = availableRooms s
  ∧ availableRooms (logout s) = availableRooms s
  ∧ currentUser (leaveRoom s) = currentUser s
  ∧ startGame mockQuestions sort (leaveRoom s) = leaveRoom s
  ∧ submitAnswer answer_index time_spent (leaveRoom s) = leaveRoom s
  ∧ nextQuestion mockQuestions sort (leaveRoom s) = leaveRoom s
  ∧ endGame (leaveRoom s) = leaveRoom s.
Proof.
  repeat split; try reflexivity.
  unfold submitAnswer. simpl. destruct (currentUser s); reflexivity.
Qed.

(** X16: leaving a room frees no seat. The lobby copy of the room is found
    as before, with every player it listed, so when the room was full a
    [joinRoom] after [leaveRoom] is refused and changes nothing. *)
Theorem leaving_frees_no_seat (s : GameStore) (roomId : string)
    (room : GameRoom) :
  find_room roomId (availableRooms s) = Some room →
  maxPlayers room ≤ Z.of_nat (length (players room)) →
  find_room roomId (availableRooms (leaveRoom s)) = Some room
  ∧ joinRoom roomId (leaveRoom s) = leaveRoom s.
Proof.
  intros Hfind Hfull. split; [exact Hfind|].
  unfold joinRoom. simpl. rewrite Hfind.
  destruct (currentUser s); [|reflexivity].
  rewrite bool_decide_eq_true_2 by exact Hfull. reflexivity.
Qed.

(** X17: [startGame] on a room keeps its players and scores while it empties
    the answer log, and it never touches the results flag. Starting twice is
    starting once with the later reordering, ending twice is ending once,
    and a game restarted after [endGame] still shows the results. *)
Theorem restarting_keeps_scores (s : GameStore) (r : GameRoom)
    (sort sort' : list Question → list Question) :
  currentRoom s = Some r →
  scores <$> currentRoom (startGame mockQuestions sort s) = Some (scores r)
  ∧ players <$> currentRoom (startGame mockQuestions sort s)
    = Some (players r)
  ∧ playerAnswers (startGame mockQuestions sort s) = []
  ∧ showResults (startGame mockQuestions sort s) = showResults s
  ∧ startGame mockQuestions sort' (startGame mockQuestions sort s)
    = startGame mockQuestions sort' s
  ∧ endGame (endGame s) = endGame s
  ∧ showResults (startGame mockQuestions sort (endGame s)) = true.
Proof.
  intros Hr. unfold startGame, endGame. rewrite Hr. simpl.
  repeat split.
Qed.

(** X18: new settings apply to the game in progress. After
    [setGameSettings], [nextQuestion] compares the next index with the new
    [questionsPerGame]: at or above it the room is finished and the question
    cleared, below it the room moves to the next index with the new
    [timePerQuestion] on its clock. *)
Theorem settings_apply_to_running_game (s : GameStore) (r : GameRoom)
    (p : PartialGameSettings) (sort : list Question → list Question) :
  currentRoom s = Some r →
  let s' := nextQuestion mockQuestions sort (setGameSettings p s) in
  let limit :=
    default (questionsPerGame (gameSettings s)) (questionsPerGame_opt p) in
  let secs :=
    default (timePerQuestion (gameSettings s)) (timePerQuestion_opt p) in
  currentRoom (setGameSettings p s) = Some r
  ∧ (limit ≤ questionIndex r + 1 →
     currentRoom s' = Some (room_with_gameState finished r)
     ∧ currentQuestion s' = None)
  ∧ (questionIndex r + 1 < limit →
     currentRoom s' =
       Some (room_with_progress (gameState r) (questionIndex r + 1) secs r)).
Proof.
  intros Hr s' limit secs. split; [exact Hr|].
  subst s'. unfold nextQuestion, endGame. simpl. rewrite Hr. fold limit.
  split; intros Hcmp.
  - rewrite bool_decide_eq_true_2 by exact Hcmp. simpl. split; reflexivity.
  - rewrite bool_decide_eq_false_2 by lia. reflexivity.
Qed.

End LeavingAndRestarting.

Lemma leaving_frees_no_seat_witness :
  joinRoom "solo"
    (leaveRoom (createRoom "solo" "Solo" 1 false (setUser alice initialState)))
  = leaveRoom (createRoom "solo" "Solo" 1 false (setUser alice initialState)).
Proof.
  refine (proj2 (leaving_frees_no_seat
                   (createRoom "solo" "Solo" 1 false
                      (setUser alice initialState))
                   "solo" _ eq_refl _)).
  simpl. lia.
Defined.

Lemma restarting_keeps_scores_witness :
  scores <$> currentRoom (startGame sampleQuestions id answeredState)
    = Some ({[ "u1" := 140 ]})
  ∧ playerAnswers (startGame sampleQuestions id answeredState) = [].
Proof.
  pose proof (restarting_keeps_scores sampleQuestions answeredState _ id id
                eq_refl) as (Hscores & _ & Hlog & _).
  split; [exact Hscores | exact Hlog].
Defined.

Lemma settings_apply_to_running_game_witness :
  gameState
    <$> currentRoom
          (nextQuestion sampleQuestions id
             (setGameSettings
                {| questionsPerGame_opt := Some 1;
                   timePerQuestion_opt := None;
                   difficulty_opt := None; categories_opt := None |}
                playingState))
  = Some finished.
Proof.
  pose proof (settings_apply_to_running_game sampleQuestions playingState _
                {| questionsPerGame_opt := Some 1;
                   timePerQuestion_opt := None;
                   difficulty_opt := None; categories_opt := None |}
                id eq_refl) as (_ & Hend & _).
  destruct Hend as [Hroom _]; [simpl; lia|].
  exact (f_equal (fmap gameState) Hroom).
Defined.

(** X19: [createRoom] replaces the active room and leaves the current
    question and the answer log of the game before in place. An answer
    submitted right after is therefore accepted and scored in the new room,
    which is still waiting. *)
Theorem createRoom_carries_question_over (s : GameStore) (u : User)
    (q : Question) (newId roomName : string) (maxP : Z) (isPriv : bool)
    (answer_index time_spent : Z) :
  currentUser s = Some u →
  currentQuestion s = Some q →
  let created := createRoom newId roomName maxP isPriv s in
  let pts :=
    if bool_decide (answer_index = correctAnswer q)
    then question_points q + Z.max 0 ((30 - time_spent) * 2) else 0 in
  currentQuestion created = Some q
  ∧ playerAnswers created = playerAnswers s
  ∧ ∃ r', currentRoom (submitAnswer answer_index time_spent created) = Some r'
          ∧ room_id r' = newId
          ∧ gameState r' = waiting
          ∧ scores r' !! user_id u = Some pts
          ∧ length (playerAnswers
                      (submitAnswer answer_index time_spent created))
            = S (length (playerAnswers s)).
Proof.
  intros Hu Hq created pts. subst created. unfold createRoom. rewrite Hu.
  simpl. split; [exact Hq|]. split; [reflexivity|].
  unfold submitAnswer. simpl. rewrite Hq. simpl.
  eexists. split; [reflexivity|]. simpl.
  split; [reflexivity|]. split; [reflexivity|]. split.
  - rewrite lookup_singleton_eq. simpl. rewrite lookup_insert_eq.
    reflexivity.
  - rewrite length_app. simpl. lia.
Qed.

Lemma createRoom_carries_question_over_witness :
  currentQuestion (createRoom "room2" "Next" 4 false playingState)
    = Some q_paper
  ∧ playerAnswers (createRoom "room2" "Next" 4 false playingState)
    = playerAnswers playingState
  ∧ ∃ r', currentRoom
            (submitAnswer 1 10
               (createRoom "room2" "Next" 4 false playingState)) = Some r'
          ∧ room_id r' = "room2"
          ∧ gameState r' = waiting
          ∧ scores r' !! "u1" = Some 140
          ∧ length (playerAnswers
                      (submitAnswer 1 10
                         (createRoom "room2" "Next" 4 false playingState)))
            = S (length (playerAnswers playingState)).
Proof.
  exact (createRoom_carries_question_over playingState alice q_paper
           "room2" "Next" 4 false 1 10 eq_refl eq_refl).
Defined.
